(** * tagging-action: the release-tag resolution of [src/index.ts]

    A shallow embedding of [run] (and of the [semver] calls it makes),
    followed by the properties of branch classification, baseline
    selection, tag resolution and release creation. *)

From Stdlib Require Import Bool List Ascii String NArith ZArith Lia Permutation.
From Stdlib Require Import Numbers.DecimalString.
From Stdlib Require DecimalFacts DecimalPos DecimalN.
Import ListNotations.

Local Open Scope string_scope.
Local Open Scope bool_scope.

(** ** JavaScript strings

    A JavaScript string is modelled by its UTF-8 encoding, a [string] of
    bytes.  The characters that [run] and [semver] look for are ASCII, one
    byte each, and an ASCII byte never occurs inside the encoding of
    another character, so that searching, cutting and splitting act on the
    bytes as they do on the characters. *)

Module JsString.

(** [s.includes(sub)] *)
Fixpoint includes (s sub : string) : bool :=
  String.prefix sub s ||
  match s with
  | EmptyString => false
  | String _ s' => includes s' sub
  end.

(** [s.replace(c, d)] with one-character string arguments: only the first
    occurrence is replaced. *)
Fixpoint replace (s : string) (c d : ascii) : string :=
  match s with
  | EmptyString => EmptyString
  | String a s' => if Ascii.eqb a c then String d s' else String a (replace s' c d)
  end.

(** [xs.join(sep)] *)
Fixpoint join (sep : string) (xs : list string) : string :=
  match xs with
  | [] => ""
  | [x] => x
  | x :: rest => x ++ sep ++ join sep rest
  end.

(** [s.split(sep)] for a one-character separator. *)
Fixpoint split (sep : ascii) (s : string) : list string :=
  match s with
  | EmptyString => [""]
  | String a s' =>
      if Ascii.eqb a sep then "" :: split sep s'
      else match split sep s' with
           | [] => [String a ""]
           | x :: rest => String a x :: rest
           end
  end.

(** Splits at the first occurrence of [sep]: the part before it and, when
    [sep] occurs, the part after it. *)
Fixpoint cut (sep : ascii) (s : string) : string * option string :=
  match s with
  | EmptyString => ("", None)
  | String a s' =>
      if Ascii.eqb a sep then ("", Some s')
      else let (l, r) := cut sep s' in (String a l, r)
  end.

(** The UTF-16 code units of the character that starts with the byte [a]:
    none for a continuation byte, two for a character outside the basic
    plane. *)
Definition code_units (a : ascii) : nat :=
  let n := nat_of_ascii a in
  if (n <? 128)%nat then 1
  else if (n <? 192)%nat then 0
  else if (n <? 240)%nat then 1
  else 2.

(** [s.length] *)
Fixpoint utf16_length (s : string) : nat :=
  match s with
  | EmptyString => 0
  | String a s' => code_units a + utf16_length s'
  end.

Definition bytes (codes : list nat) : string :=
  string_of_list_ascii (map ascii_of_nat codes).

(** The white space and line terminators that [trim] strips, encoded:
    U+0009 to U+000D, U+0020, U+00A0, U+1680, U+2000 to U+200A, U+2028,
    U+2029, U+202F, U+205F, U+3000 and U+FEFF. *)
Definition white_space : list string :=
  map bytes
      [ [9]; [10]; [11]; [12]; [13]; [32]; [194; 160]; [225; 154; 128];
        [226; 128; 128]; [226; 128; 129]; [226; 128; 130]; [226; 128; 131];
        [226; 128; 132]; [226; 128; 133]; [226; 128; 134]; [226; 128; 135];
        [226; 128; 136]; [226; 128; 137]; [226; 128; 138];
        [226; 128; 168]; [226; 128; 169]; [226; 128; 175]; [226; 129; 159];
        [227; 128; 128]; [239; 187; 191] ].

(** What follows the prefix [p] in [s], when [s] starts with [p]. *)
Fixpoint drop_prefix (p s : string) : option string :=
  match p with
  | EmptyString => Some s
  | String a p' =>
      match s with
      | EmptyString => None
      | String b s' => if Ascii.eqb a b then drop_prefix p' s' else None
      end
  end.

(** [s] without one of the prefixes [ws], when it starts with one. *)
Fixpoint strip (ws : list string) (s : string) : option string :=
  match ws with
  | [] => None
  | w :: rest =>
      match drop_prefix w s with
      | Some r => Some r
      | None => strip rest s
      end
  end.

(** Strips the prefixes [ws] from [s] as long as there is one; [fuel]
    bounds the number of rounds, and the length of [s] is enough. *)
Fixpoint strip_all (ws : list string) (fuel : nat) (s : string) : string :=
  match fuel with
  | O => s
  | S fuel' =>
      match strip ws s with
      | Some r => strip_all ws fuel' r
      | None => s
      end
  end.

Definition reverse (s : string) : string :=
  string_of_list_ascii (rev (list_ascii_of_string s)).

Definition trim_start (s : string) : string :=
  strip_all white_space (String.length s) s.

Definition trim_end (s : string) : string :=
  reverse (strip_all (map reverse white_space) (String.length s) (reverse s)).

(** [s.trim()] *)
Definition trim (s : string) : string := trim_end (trim_start s).

Fixpoint forallb (p : ascii -> bool) (s : string) : bool :=
  match s with
  | EmptyString => true
  | String a s' => p a && forallb p s'
  end.

Definition is_digit (a : ascii) : bool :=
  let n := nat_of_ascii a in (48 <=? n)%nat && (n <=? 57)%nat.

Definition is_alpha (a : ascii) : bool :=
  let n := nat_of_ascii a in
  ((65 <=? n)%nat && (n <=? 90)%nat) || ((97 <=? n)%nat && (n <=? 122)%nat).

Definition nonempty (s : string) : bool :=
  match s with EmptyString => false | _ => true end.

Definition nonempty_list {A} (l : list A) : bool :=
  match l with [] => false | _ => true end.

(** Truthiness of a string: only the empty string is falsy. *)
Definition truthy (s : string) : bool := nonempty s.

(** [String(n)] for a non-negative integer below 1e21. *)
Definition of_N (n : N) : string := NilEmpty.string_of_uint (N.to_uint n).

(** [+s] for a string of decimal digits. *)
Definition digits_value (s : string) : N :=
  fold_left (fun acc a => (10 * acc + (N.of_nat (nat_of_ascii a) - 48))%N)
            (list_ascii_of_string s) 0%N.

End JsString.

(** ** The [semver] package

    [index.ts] calls three functions of the npm package [semver], an
    external dependency: [semver.valid], [semver.prerelease] and
    [semver.inc].  They are modelled here after the package (strict mode,
    no options): the class [SemVer] with its constructor, [format] and
    [inc] method, and the three exported functions.  Numbers are exact:
    the constructor refuses components above [MAX_SAFE_INTEGER]. *)

Module Semver.
Import JsString.

Definition MAX_LENGTH : nat := 256.
Definition MAX_SAFE_INTEGER : N := 9007199254740991.

(** A pre-release identifier is a number or a string. *)
Inductive Identifier : Type :=
| IdNum (n : N)
| IdStr (s : string).

Record SemVer : Type := mkSemVer {
  major : N;
  minor : N;
  patch : N;
  prerelease : list Identifier;
  build : list string
}.

(** *** The regular expression FULL

    A numeric identifier is [0], or digits that do not start with [0].
    A non-numeric identifier is made of digits, letters and hyphens and
    holds at least one letter or hyphen.  A pre-release identifier is
    either of them; a build identifier is a non-empty run of digits,
    letters and hyphens.  FULL, anchored at both ends, is: an optional
    [v]; three numeric identifiers separated by dots (groups 1 to 3);
    optionally a hyphen and dot-separated pre-release identifiers
    (group 4); optionally a plus sign and dot-separated build
    identifiers (group 5).

    No identifier holds a plus sign and the main version holds no
    hyphen: the first plus sign of a match is the build separator and
    the first hyphen before it the pre-release separator, which is how
    [match_full] cuts its input. *)

Definition ident_char (a : ascii) : bool :=
  is_digit a || is_alpha a || Ascii.eqb a "-".

Definition numeric_identifier (s : string) : bool :=
  nonempty s && forallb is_digit s && (String.eqb s "0" || negb (String.prefix "0" s)).

Definition non_numeric_identifier (s : string) : bool :=
  forallb ident_char s && negb (forallb is_digit s).

Definition prerelease_identifier (s : string) : bool :=
  numeric_identifier s || non_numeric_identifier s.

Definition build_identifier (s : string) : bool :=
  nonempty s && forallb ident_char s.

(** The capture groups 1 to 5 of a match. *)
Record Groups : Type := mkGroups {
  g_major : string;
  g_minor : string;
  g_patch : string;
  g_prerelease : option string;
  g_build : option string
}.

Definition all_identifiers (p : string -> bool) (o : option string) : bool :=
  match o with
  | None => true
  | Some s => List.forallb p (split "." s)
  end.

Definition match_full (s : string) : option Groups :=
  let s := match s with String "v" r => r | _ => s end in
  let (front, bld) := cut "+" s in
  let (main, pre) := cut "-" front in
  match split "." main with
  | [a; b; c] =>
      if numeric_identifier a && numeric_identifier b && numeric_identifier c
         && all_identifiers prerelease_identifier pre
         && all_identifiers build_identifier bld
      then Some (mkGroups a b c pre bld)
      else None
  | _ => None
  end.

(** *** [new SemVer(version)]; [None] when the constructor throws. *)

Definition parse_prerelease_id (id : string) : Identifier :=
  if nonempty id && forallb is_digit id then
    let num := digits_value id in
    if (num <? MAX_SAFE_INTEGER)%N then IdNum num else IdStr id
  else IdStr id.

Definition construct (version : string) : option SemVer :=
  if (MAX_LENGTH <? utf16_length version)%nat then None
  else
    match match_full (trim version) with
    | None => None
    | Some m =>
        let major := digits_value (g_major m) in
        let minor := digits_value (g_minor m) in
        let patch := digits_value (g_patch m) in
        if (MAX_SAFE_INTEGER <? major)%N then None
        else if (MAX_SAFE_INTEGER <? minor)%N then None
        else if (MAX_SAFE_INTEGER <? patch)%N then None
        else
          Some {| major := major; minor := minor; patch := patch;
                  prerelease := match g_prerelease m with
                                | None => []
                                | Some p => map parse_prerelease_id (split "." p)
                                end;
                  build := match g_build m with
                           | None => []
                           | Some b => split "." b
                           end |}
    end.

Definition id_to_string (i : Identifier) : string :=
  match i with
  | IdNum n => of_N n
  | IdStr s => s
  end.

(** [format]: the field [version]. *)
Definition version (v : SemVer) : string :=
  of_N (major v) ++ "." ++ of_N (minor v) ++ "." ++ of_N (patch v) ++
  match prerelease v with
  | [] => ""
  | p => "-" ++ join "." (map id_to_string p)
  end.

(** [parse(version)]: the expression is tested on the raw string before
    the constructor runs. *)
Definition parse (version : string) : option SemVer :=
  if (MAX_LENGTH <? utf16_length version)%nat then None
  else
    match match_full version with
    | None => None
    | Some _ => construct version
    end.

(** [semver.valid(version)]: the canonical string, or null. *)
Definition valid (v : string) : option string :=
  option_map version (parse v).

(** [semver.prerelease(version)]: the identifiers when there are some,
    or null. *)
Definition prerelease_of (v : string) : option (list Identifier) :=
  match parse v with
  | Some parsed =>
      match prerelease parsed with
      | [] => None
      | p => Some p
      end
  | None => None
  end.

(** *** [isNaN] of a pre-release identifier

    A number is never NaN (identifiers are finite); a string is
    converted by StringToNumber, and is NaN unless it spells a numeric
    literal: white space only, a signed decimal literal or [Infinity],
    or an unsigned hexadecimal, binary or octal literal. *)

Definition is_hex (a : ascii) : bool :=
  let n := nat_of_ascii a in
  is_digit a || ((65 <=? n)%nat && (n <=? 70)%nat) || ((97 <=? n)%nat && (n <=? 102)%nat).

Definition is_bin (a : ascii) : bool :=
  let n := nat_of_ascii a in (48 <=? n)%nat && (n <=? 49)%nat.

Definition is_oct (a : ascii) : bool :=
  let n := nat_of_ascii a in (48 <=? n)%nat && (n <=? 55)%nat.

Definition strip_sign (s : string) : string :=
  match s with
  | String "+" r => r
  | String "-" r => r
  | _ => s
  end.

Fixpoint span_digits (s : string) : string * string :=
  match s with
  | EmptyString => ("", "")
  | String a s' =>
      if is_digit a then let (d, r) := span_digits s' in (String a d, r)
      else ("", s)
  end.

Definition exponent_part (s : string) : bool :=
  match s with
  | EmptyString => true
  | String e r =>
      (Ascii.eqb e "e" || Ascii.eqb e "E") &&
      (let d := strip_sign r in nonempty d && forallb is_digit d)
  end.

Definition str_decimal_literal (s : string) : bool :=
  let u := strip_sign s in
  if String.eqb u "Infinity" then true
  else
    let (ip, r1) := span_digits u in
    match r1 with
    | String "." r =>
        let (fp, r2) := span_digits r in
        (nonempty ip || nonempty fp) && exponent_part r2
    | _ => nonempty ip && exponent_part r1
    end.

Definition str_numeric_literal (s : string) : bool :=
  match trim s with
  | EmptyString => true
  | String "0" (String x r) as t =>
      if Ascii.eqb x "x" || Ascii.eqb x "X" then nonempty r && forallb is_hex r
      else if Ascii.eqb x "b" || Ascii.eqb x "B" then nonempty r && forallb is_bin r
      else if Ascii.eqb x "o" || Ascii.eqb x "O" then nonempty r && forallb is_oct r
      else str_decimal_literal t
  | t => str_decimal_literal t
  end.

(** [isNaN(x)] for [x] an element of [prerelease], or undefined. *)
Definition isNaN (x : option Identifier) : bool :=
  match x with
  | None => true
  | Some (IdNum _) => false
  | Some (IdStr s) => negb (str_numeric_literal s)
  end.

(** *** The method [inc]

    The components of a [SemVer] built by [construct] are at most
    [MAX_SAFE_INTEGER], so that [++] is exact on them. *)

(** The loop of case ['pre']: from the right, the first identifier that
    is a number is incremented; [None] when there is none. *)
Fixpoint bump_last_number (p : list Identifier) : option (list Identifier) :=
  match p with
  | [] => None
  | x :: rest =>
      match bump_last_number rest with
      | Some rest' => Some (x :: rest')
      | None =>
          match x with
          | IdNum n => Some (IdNum (n + 1) :: rest)
          | IdStr _ => None
          end
      end
  end.

Definition strict_eq_id (x : option Identifier) (identifier : string) : bool :=
  match x with
  | Some (IdStr s) => String.eqb s identifier
  | _ => false
  end.

Definition set_prerelease (v : SemVer) (p : list Identifier) : SemVer :=
  {| major := major v; minor := minor v; patch := patch v;
     prerelease := p; build := build v |}.

(** case ['pre'] *)
Definition inc_pre (v : SemVer) (identifier : option string) : SemVer :=
  let p1 :=
    match prerelease v with
    | [] => [IdNum 0]
    | p => match bump_last_number p with
           | Some p' => p'
           | None => (p ++ [IdNum 0])%list
           end
    end in
  let p2 :=
    match identifier with
    | Some id =>
        if truthy id then
          if strict_eq_id (nth_error p1 0) id then
            if isNaN (nth_error p1 1) then [IdStr id; IdNum 0] else p1
          else [IdStr id; IdNum 0]
        else p1
    | None => p1
    end in
  set_prerelease v p2.

(** case ['patch'] *)
Definition inc_patch (v : SemVer) : SemVer :=
  {| major := major v; minor := minor v;
     patch := match prerelease v with [] => patch v + 1 | _ => patch v end;
     prerelease := []; build := build v |}.

(** case ['minor'] *)
Definition inc_minor (v : SemVer) : SemVer :=
  {| major := major v;
     minor := if negb (patch v =? 0)%N || negb (nonempty_list (prerelease v))
              then minor v + 1 else minor v;
     patch := 0; prerelease := []; build := build v |}.

(** case ['major'] *)
Definition inc_major (v : SemVer) : SemVer :=
  {| major := if negb (minor v =? 0)%N || negb (patch v =? 0)%N
                 || negb (nonempty_list (prerelease v))
              then major v + 1 else major v;
     minor := 0; patch := 0; prerelease := []; build := build v |}.

(** [v.inc(release, identifier)]; [None] when it throws
    ("invalid increment argument"). *)
Definition inc_method (v : SemVer) (release : string) (identifier : option string)
  : option SemVer :=
  if String.eqb release "premajor" then
    Some (inc_pre {| major := major v + 1; minor := 0; patch := 0;
                     prerelease := []; build := build v |} identifier)
  else if String.eqb release "preminor" then
    Some (inc_pre {| major := major v; minor := minor v + 1; patch := 0;
                     prerelease := []; build := build v |} identifier)
  else if String.eqb release "prepatch" then
    Some (inc_pre (inc_patch (set_prerelease v [])) identifier)
  else if String.eqb release "prerelease" then
    Some (inc_pre (match prerelease v with [] => inc_patch v | _ => v end) identifier)
  else if String.eqb release "major" then Some (inc_major v)
  else if String.eqb release "minor" then Some (inc_minor v)
  else if String.eqb release "patch" then Some (inc_patch v)
  else if String.eqb release "pre" then Some (inc_pre v identifier)
  else None.

(** [semver.inc(version, release, identifier)]: the incremented version
    string, or null when the constructor or the method throws. *)
Definition inc (version0 release : string) (identifier : option string)
  : option string :=
  match construct version0 with
  | None => None
  | Some v => option_map version (inc_method v release identifier)
  end.

End Semver.

(** ** [index.ts] *)

Module Action.
Import JsString.

(** *** Data *)

(** ['patch' | 'minor' | 'major' | 'chore'] *)
Inductive Bump : Type := patch | minor | major | chore.

Definition bump_string (b : Bump) : string :=
  match b with
  | patch => "patch"
  | minor => "minor"
  | major => "major"
  | chore => "chore"
  end.

Definition is_chore (b : Bump) : bool :=
  match b with chore => true | _ => false end.

(** The patterns of [branchTypes] all have the shape [/^lit.*/], [lit] a
    literal; [.*] also matches the empty string, so that such a pattern
    matches exactly the strings that start with [lit]. *)
Record RegExp : Type := StartsWith { literal : string }.

Definition test (r : RegExp) (s : string) : bool := String.prefix (literal r) s.

Record BranchType : Type := mkBranchType {
  pattern : RegExp;
  bump : Bump;
  label : string
}.

Definition branchTypes : list BranchType :=
  [ mkBranchType (StartsWith "fix/") patch "fix";
    mkBranchType (StartsWith "feature/") minor "feature";
    mkBranchType (StartsWith "release/") major "release";
    mkBranchType (StartsWith "chore/") chore "chore" ].

(** The fields of [WebhookPayloadPullRequestPullRequest] that [run] reads. *)
Record PullRequest : Type := mkPullRequest {
  pr_number : Z;
  pr_title : string;
  pr_body : string;
  pr_head_ref : string;
  pr_base_ref : string;
  pr_draft : bool;
  pr_merged : bool
}.

(** [Github.context]: the event name with the payload of that event. *)
Inductive Event : Type :=
| issue_comment (action : string) (comment_body : string) (issue_number : Z)
| pull_request (action : string) (number : Z) (pull_request_ : PullRequest)
| other_event (eventName : string).

Record Tag : Type := mkTag { name : string }.

(** The parameters of [octokit.repos.createRelease] ([owner] and [repo]
    are constants of the run); [tag_name] is null when [semver.inc] is. *)
Record ReleaseParams : Type := mkReleaseParams {
  tag_name : option string;
  release_name : string;
  release_body : string;
  release_draft : bool;
  release_prerelease : bool;
  target_commitish : string
}.

Inductive JsValue : Type :=
| JsNull
| JsStr (s : string)
| JsBool (b : bool).

(** What a run does to the outside, in order. *)
Inductive Effect : Type :=
| PullsGet (pull_number : Z)
| AddLabels (issue_number : Z) (labels : list string)
| CreateComment (issue_number : Z) (body : string)
| ListTags (per_page : Z)
| CreateRelease (params : ReleaseParams)
| Warning (message : string)
| Info (message : string)
| SetFailed (message : string)
| SetOutput (output : string) (value : JsValue).

(** An awaited promise: resolved with a value, or rejected with an error
    of that message. *)
Inductive Response (A : Type) : Type :=
| Resolved (a : A)
| Rejected (message : string).
Arguments Resolved {A} a.
Arguments Rejected {A} message.

(** The answers of the GitHub client [octokit]; [repos_createRelease]
    answers with the response status. *)
Record Octokit : Type := mkOctokit {
  pulls_get : Z -> Response PullRequest;
  issues_addLabels : Z -> list string -> Response unit;
  issues_createComment : Z -> string -> Response unit;
  repos_listTags : Z -> Response (list Tag);
  repos_createRelease : ReleaseParams -> Response Z
}.

(** *** Control flow: effects, [return] and exceptions *)

Inductive Completion (A : Type) : Type :=
| Normal (a : A)
| Returned
| Thrown (message : string).
Arguments Normal {A} a.
Arguments Returned {A}.
Arguments Thrown {A} message.

Definition Act (A : Type) : Type := (list Effect * Completion A)%type.

Definition ret {A} (a : A) : Act A := ([], Normal a).

Definition bind {A B} (m : Act A) (k : A -> Act B) : Act B :=
  match m with
  | (t, Normal a) => let (t', c) := k a in ((t ++ t')%list, c)
  | (t, Returned) => (t, Returned)
  | (t, Thrown e) => (t, Thrown e)
  end.

Notation "x <- m ;; k" := (bind m (fun x => k))
  (at level 61, m at next level, right associativity).
Notation "m ;;; k" := (bind m (fun _ => k))
  (at level 61, right associativity).

Definition emit (e : Effect) : Act unit := ([e], Normal tt).

(** [return] *)
Definition return_ {A} : Act A := ([], Returned).

(** [await] of a call to [octokit]. *)
Definition await {A} (e : Effect) (r : Response A) : Act A :=
  ([e], match r with
        | Resolved a => Normal a
        | Rejected msg => Thrown msg
        end).

(** A call of an async function: its [return] ends the callee only. *)
Definition call (m : Act unit) : Act unit :=
  match m with
  | (t, Returned) => (t, Normal tt)
  | _ => m
  end.

(** *** Tag resolution (lines 101 to 119 of [run]) *)

(** [branchTypes.find(branchPat => branchPat.pattern.test(branch))] *)
Definition find_pattern (branch : string) : option BranchType :=
  find (fun branchPat => test (pattern branchPat) branch) branchTypes.

(** [!x] for [x] an array or null. *)
Definition not_array {A} (x : option (list A)) : bool :=
  match x with
  | None => true
  | Some _ => false
  end.

(** [x === s] for [x] a string or null. *)
Definition strict_eq (x : option string) (s : string) : bool :=
  match x with
  | Some y => String.eqb y s
  | None => false
  end.

(** Truthiness of a string or null. *)
Definition truthy_opt (x : option string) : bool :=
  match x with
  | Some y => truthy y
  | None => false
  end.

Definition fullReleases (tags : list Tag) : list Tag :=
  filter (fun tag => not_array (Semver.prerelease_of (name tag))
                     && strict_eq (Semver.valid (name tag)) (name tag)) tags.

Definition firstValid (tags : list Tag) : option Tag :=
  find (fun tag => truthy_opt (Semver.valid (name tag))) (fullReleases tags).

Definition lastTag (tags : list Tag) : string :=
  match firstValid tags with
  | Some t => name t
  | None => "0.0.0"
  end.

Definition rcName (branch : string) : string :=
  "rc-" ++ replace branch "/" "-".

Definition rcs (tags : list Tag) (branch : string) : list Tag :=
  filter (fun tag => includes (name tag) (rcName branch)) tags.

(** The value of [newTag] at line 120, from the listed tags, the head
    branch, its rule and [preRelease]. *)
Definition newTag (tags : list Tag) (branch : string) (pat : BranchType)
           (preRelease : bool) : option string :=
  let prefix := if preRelease then "pre" else "" in
  let bump := prefix ++ bump_string (bump pat) in
  if preRelease then
    match rcs tags branch with
    | rc0 :: _ => Semver.inc (name rc0) "prerelease" None
    | [] => Semver.inc (lastTag tags) bump (Some (rcName branch))
    end
  else Semver.inc (lastTag tags) bump None.

(** A value in a template literal. *)
Definition show (x : option string) (absent : string) : string :=
  match x with
  | Some s => s
  | None => absent
  end.

Definition js_of (x : option string) : JsValue :=
  match x with
  | Some s => JsStr s
  | None => JsNull
  end.

(** *** [addLabel] *)

Definition addLabel (octokit : Octokit) (pr : PullRequest) : Act unit :=
  match find_pattern (pr_head_ref pr) with
  | None =>
      emit (Warning "branch pattern not expected, skipping") ;;;
      return_
  | Some pat =>
      await (AddLabels (pr_number pr) [label pat])
            (issues_addLabels octokit (pr_number pr) [label pat])
  end.

(** *** [run] *)

(** Lines 27 to 61: the pull request of the event, or null. *)
Definition extract (ev : Event) (octokit : Octokit) : Act (option PullRequest) :=
  match ev with
  | issue_comment action comment_body issue_number =>
      if String.eqb action "created" && includes comment_body "#tag" then
        resp <- await (PullsGet issue_number) (pulls_get octokit issue_number) ;;
        ret (Some resp)
      else ret None
  | pull_request action number prPayload_pr =>
      if String.eqb action "opened" then
        call (addLabel octokit prPayload_pr) ;;;
        (let body := "Add a comment including `#tag` to create a release candidate tag." in
         await (CreateComment number body) (issues_createComment octokit number body)) ;;;
        return_
      else if negb (String.eqb action "closed" && pr_merged prPayload_pr) then
        return_
      else ret (Some prPayload_pr)
  | other_event _ => ret None
  end.

(** The argument of [octokit.repos.createRelease] at line 122. *)
Definition release_params (pr : PullRequest) (newTag : option string) : ReleaseParams :=
  let preRelease := negb (pr_merged pr) in
  {| tag_name := newTag;
     release_name := pr_title pr;
     release_body := pr_body pr;
     release_draft := false;
     release_prerelease := preRelease;
     target_commitish := if preRelease then pr_head_ref pr else pr_base_ref pr |}.

(** The body of the comment at line 144. *)
Definition created_comment (preRelease : bool) (newTag : option string) : string :=
  ":label: " ++ (if preRelease then "Pre-release" else "Release")
  ++ " `" ++ show newTag "null" ++ "` created.".

(** Lines 92 to 146: the tags are listed, the release created and
    reported. *)
Definition release (octokit : Octokit) (pr : PullRequest) (pat : BranchType)
  : Act unit :=
  let preRelease := negb (pr_merged pr) in
  let branch := pr_head_ref pr in
  let prNumber := pr_number pr in
  tags <- await (ListTags 100) (repos_listTags octokit 100) ;;
  emit (Info "tags:") ;;;
  emit (Info (join "," (map name tags))) ;;;
  emit (Info ("firstValid: " ++ show (option_map name (firstValid tags)) "undefined")) ;;;
  (let newTag := newTag tags branch pat preRelease in
   emit (Info ("newTag: " ++ show newTag "null")) ;;;
   (let params := release_params pr newTag in
    createReleaseResponse <- await (CreateRelease params) (repos_createRelease octokit params) ;;
    if negb (createReleaseResponse =? 201)%Z && (0 <? prNumber)%Z then
      emit (SetFailed "Failed to create release") ;;;
      return_
    else
      emit (SetOutput "new_tag" (js_of newTag)) ;;;
      emit (SetOutput "pre_release" (JsBool preRelease)) ;;;
      (let body := created_comment preRelease newTag in
       await (CreateComment prNumber body) (issues_createComment octokit prNumber body)))).

(** Lines 62 to 146, from the pull request found. *)
Definition proceed (octokit : Octokit) (pr : option PullRequest) : Act unit :=
  match pr with
  | None =>
      emit (Warning "PR not found") ;;;
      return_
  | Some pr =>
      if negb (String.eqb (pr_base_ref pr) "master")
         && negb (String.eqb (pr_base_ref pr) "main") then
        emit (Info "PR not to master, skipping") ;;;
        return_
      else if pr_draft pr then
        emit (Info "PR is a draft, skipping") ;;;
        return_
      else
        match find_pattern (pr_head_ref pr) with
        | None =>
            emit (Warning "branch pattern not expected, skipping") ;;;
            return_
        | Some pat =>
            if is_chore (bump pat) then return_
            else release octokit pr pat
        end
  end.

(** The body of the [try] block. *)
Definition run_try (ev : Event) (octokit : Octokit) : Act unit :=
  pr <- extract ev octokit ;;
  proceed octokit pr.

(** The [catch] clause: [core.setFailed(error.message)]. *)
Definition catch (m : Act unit) : list Effect :=
  match m with
  | (t, Thrown msg) => (t ++ [SetFailed msg])%list
  | (t, _) => t
  end.

(** [run]: what the run does, in order. *)
Definition run (ev : Event) (octokit : Octokit) : list Effect :=
  catch (run_try ev octokit).

(** A run fails when it calls [core.setFailed]. *)
Definition is_SetFailed (e : Effect) : bool :=
  match e with SetFailed _ => true | _ => false end.

Definition failed (t : list Effect) : bool := existsb is_SetFailed t.

End Action.

(** ** [updateFile]

    The calls to [fs] act on a file system: what each path holds, and the
    writes the system refuses, which depend on its state and on the path (a
    missing parent directory, a read-only file or directory).  The function
    [update] returns the new text or throws. *)

Module Changelog.

(** What a path holds. *)
Inductive Entry : Type :=
| File (data : string)
| Directory.

Record FileSystem : Type := mkFileSystem {
  entry : string -> option Entry;
  refused : (string -> option Entry) -> string -> bool
}.

Definition newline : string := String (ascii_of_nat 10) EmptyString.

(** The template of a new file (lines 181 to 183). *)
Definition header : string :=
  "# Changelog" ++ newline ++
  "All notable changes to this project will be documented in this file." ++ newline.

(** [fs.existsSync(file)] *)
Definition existsSync (fs : FileSystem) (file : string) : bool :=
  match entry fs file with
  | Some _ => true
  | None => false
  end.

(** [fs.writeFileSync(file, data, 'utf-8')]: the file system with the file
    written, or [None] when it throws: the write is refused, or the path is
    a directory. *)
Definition writeFileSync (fs : FileSystem) (file data : string) : option FileSystem :=
  if refused fs (entry fs) file then None
  else
    match entry fs file with
    | Some Directory => None
    | _ =>
        Some {| entry := fun path => if String.eqb path file then Some (File data)
                                     else entry fs path;
                refused := refused fs |}
    end.

(** [fs.readFileSync(file, 'utf-8')]: the text of the file, or [None] when
    it throws: there is no such file, or the path is a directory. *)
Definition readFileSync (fs : FileSystem) (file : string) : option string :=
  match entry fs file with
  | Some (File data) => Some data
  | _ => None
  end.

(** [updateFile(file, update)]: the file system it leaves, and whether it
    returned ([true]) or threw ([false]). *)
Definition updateFile (file : string) (update : string -> option string)
           (fs : FileSystem) : FileSystem * bool :=
  match (if negb (existsSync fs file) then writeFileSync fs file header else Some fs) with
  | None => (fs, false)
  | Some fs1 =>
      match readFileSync fs1 file with
      | None => (fs1, false)
      | Some data =>
          match update data with
          | None => (fs1, false)
          | Some newData =>
              match writeFileSync fs1 file newData with
              | None => (fs1, false)
              | Some fs2 => (fs2, true)
              end
          end
      end
  end.

End Changelog.

(** * Properties *)

Import JsString Action.

(** ** Vocabulary of the statements *)

(** The filter in the words of the specification: the name parses as a
    semantic version, has no pre-release component, and its canonical
    re-serialization is the raw name. *)
Definition spec_full_release (raw : string) : bool :=
  match Semver.parse raw with
  | Some v =>
      match Semver.prerelease v with
      | [] => String.eqb (Semver.version v) raw
      | _ => false
      end
  | None => false
  end.

(** The baseline in the words of the specification: the first full release
    in the given order, or the literal 0.0.0. *)
Definition spec_baseline (tags : list Tag) : string :=
  match find (fun tag => spec_full_release (name tag)) tags with
  | Some t => name t
  | None => "0.0.0"
  end.

(** The effects that belong to version resolution and release creation. *)
Definition about_release (e : Effect) : bool :=
  match e with
  | ListTags _ | CreateRelease _ | SetOutput _ _ => true
  | _ => false
  end.

(** The two gates of lines 67 to 74. *)
Definition gated (pr : PullRequest) : bool :=
  (negb (String.eqb (pr_base_ref pr) "master") && negb (String.eqb (pr_base_ref pr) "main"))
  || pr_draft pr.

(** What is logged between the listing of the tags and the release. *)
Definition resolution_log (tags : list Tag) (nt : option string) : list Effect :=
  [ ListTags 100;
    Info "tags:";
    Info (join "," (map name tags));
    Info ("firstValid: " ++ show (option_map name (firstValid tags)) "undefined");
    Info ("newTag: " ++ show nt "null") ].

(** A client and pull requests for the examples. *)
Definition example_client (tags : list string) (status : Z) : Octokit :=
  {| pulls_get := fun n => Resolved (mkPullRequest n "title" "body" "feature/x" "main" false false);
     issues_addLabels := fun _ _ => Resolved tt;
     issues_createComment := fun _ _ => Resolved tt;
     repos_listTags := fun _ => Resolved (map mkTag tags);
     repos_createRelease := fun _ => Resolved status |}.

Definition example_merged (n : Z) (branch : string) : PullRequest :=
  mkPullRequest n "title" "body" branch "main" false true.

(** The event of a merge of [example_merged]. *)
Definition example_merge (n : Z) (branch : string) : Event :=
  pull_request "closed" n (example_merged n branch).

(** The outputs of a run and its comments. *)
Definition output_or_comment (e : Effect) : bool :=
  match e with
  | SetOutput _ _ | CreateComment _ _ => true
  | _ => false
  end.

Definition example_open (n : Z) (branch : string) : PullRequest :=
  mkPullRequest n "title" "body" branch "main" false false.

(** major.minor.patch *)
Definition core_string (a b c : N) : string :=
  of_N a ++ "." ++ of_N b ++ "." ++ of_N c.

(** The standard increment in the words of the specification: the bumped
    component goes up by one, the components after it are reset, and there
    is no pre-release suffix; chore is no increment. *)
Definition spec_increment (b : Bump) (v : Semver.SemVer) : option string :=
  match b with
  | major => Some (core_string (Semver.major v + 1) 0 0)
  | minor => Some (core_string (Semver.major v) (Semver.minor v + 1) 0)
  | patch => Some (core_string (Semver.major v) (Semver.minor v) (Semver.patch v + 1))
  | chore => None
  end.

(** No hyphen in a string. *)
Definition no_hyphen (s : string) : bool :=
  JsString.forallb (fun a => negb (Ascii.eqb a "-")) s.

(** The first tag, in the given order, whose name includes the identifier
    of the branch. *)
Definition first_rc (tags : list Tag) (branch : string) : option Tag :=
  find (fun tag => includes (name tag) (rcName branch)) tags.

Definition is_string_id (i : Semver.Identifier) : Prop :=
  match i with
  | Semver.IdStr _ => True
  | Semver.IdNum _ => False
  end.

(** The pre-release counter goes up: the last identifier that is a number
    is incremented by one, or, when no identifier is a number, the counter 0
    is appended; nothing else changes.  An identifier is a number when it
    was read as one ([read_as_number]): digits of a value of
    [MAX_SAFE_INTEGER] or more are a string. *)
Inductive counter_bumped : list Semver.Identifier -> list Semver.Identifier -> Prop :=
| bumped_number (l1 : list Semver.Identifier) (n : N) (l2 : list Semver.Identifier) :
    Forall is_string_id l2 ->
    counter_bumped (l1 ++ Semver.IdNum n :: l2) (l1 ++ Semver.IdNum (n + 1) :: l2)
| bumped_append (p : list Semver.Identifier) :
    Forall is_string_id p ->
    counter_bumped p (p ++ [Semver.IdNum 0]).

(** The core of a tag name, when it is a version. *)
Definition core_of (raw : option string) : option (N * N * N) :=
  match raw with
  | Some s =>
      match Semver.construct s with
      | Some v => Some (Semver.major v, Semver.minor v, Semver.patch v)
      | None => None
      end
  | None => None
  end.

(** The hint posted on a pull request that is opened (line 51). *)
Definition hint_comment : string :=
  "Add a comment including `#tag` to create a release candidate tag.".

Definition is_CreateRelease (e : Effect) : bool :=
  match e with CreateRelease _ => true | _ => false end.

Definition is_ListTags (e : Effect) : bool :=
  match e with ListTags _ => true | _ => false end.

(** The calls to the GitHub client. *)
Definition is_client_call (e : Effect) : bool :=
  match e with
  | PullsGet _ | AddLabels _ _ | CreateComment _ _ | ListTags _ | CreateRelease _ => true
  | _ => false
  end.

(** A client whose listing of the tags is rejected. *)
Definition example_rate_limited : Octokit :=
  {| pulls_get := fun _ => Rejected "not found";
     issues_addLabels := fun _ _ => Resolved tt;
     issues_createComment := fun _ _ => Resolved tt;
     repos_listTags := fun _ => Rejected "rate limit";
     repos_createRelease := fun _ => Resolved 201%Z |}.

(** The character [c] does not occur in [s]. *)
Definition lacks (c : ascii) (s : string) : bool :=
  JsString.forallb (fun a => negb (Ascii.eqb a c)) s.

(** The name of a release candidate: the core, the identifier and the
    counter. *)
Definition rc_tag (a b c : N) (id : string) (n : N) : string :=
  core_string a b c ++ "-" ++ id ++ "." ++ of_N n.

(** A file system with one file and one directory, that refuses the
    writes under a directory that does not exist. *)
Definition example_files : Changelog.FileSystem :=
  {| Changelog.entry := fun path =>
       if String.eqb path "README.md" then Some (Changelog.File "readme")
       else if String.eqb path "docs" then Some Changelog.Directory
       else None;
     Changelog.refused := fun _ path => String.prefix "nodir/" path |}.

(** The updates of the examples: one that appends a line, one that
    throws. *)
Definition example_append (line : string) (data : string) : option string :=
  Some (data ++ line).


(** The text of a path: the template when the path holds nothing. *)
Definition text_or_header (fs : Changelog.FileSystem) (file : string) : string :=
  match Changelog.entry fs file with
  | Some (Changelog.File data) => data
  | _ => Changelog.header
  end.

(** The release of the merge of fix/bug on the tag 1.0.0. *)
Definition example_release : ReleaseParams :=
  release_params (example_merged 7 "fix/bug") (Some "1.0.1").

(** The string [w] is empty or starts with the byte [a]. *)
Definition starts_with (a : ascii) (w : string) : bool :=
  match w with
  | EmptyString => true
  | String b _ => Ascii.eqb b a
  end.

(** The byte [a] neither starts nor ends the encoding of a white space. *)
Definition plain (a : ascii) : bool :=
  negb (existsb (starts_with a) white_space)
  && negb (existsb (starts_with a) (map reverse white_space)).

(** The identifiers that [semver] reads as numbers: digits only, with a
    value below [MAX_SAFE_INTEGER]; every other identifier is a string. *)
Definition read_as_number (id : string) : bool :=
  nonempty id && JsString.forallb is_digit id
  && (digits_value id <? Semver.MAX_SAFE_INTEGER)%N.

(** Every release of the trace [t] comes after a listing of the tags;
    [seen] tells whether one came before [t]. *)
Fixpoint listed_first (seen : bool) (t : list Effect) : bool :=
  match t with
  | [] => true
  | ListTags n :: rest => listed_first (seen || (n =? 100)%Z) rest
  | CreateRelease _ :: rest => seen && listed_first seen rest
  | _ :: rest => listed_first seen rest
  end.

(** ** The full-release baseline *)

Lemma find_filter {A} (p q : A -> bool) (l : list A) :
  find p (filter q l) = find (fun x => q x && p x) l.
Proof.
  induction l as [|x l IH]; simpl; [reflexivity|].
  destruct (q x); simpl; [|exact IH].
  destruct (p x); [reflexivity | exact IH].
Qed.

Lemma find_pointwise {A} (p q : A -> bool) (l : list A) :
  (forall x, p x = q x) -> find p l = find q l.
Proof.
  intros E; induction l as [|x l IH]; simpl; [reflexivity|].
  rewrite E, IH; reflexivity.
Qed.

(** The two tests of the source, taken together, are the filter of the
    specification. *)
Lemma full_release_test (raw : string) :
  not_array (Semver.prerelease_of raw) && strict_eq (Semver.valid raw) raw
  && truthy_opt (Semver.valid raw)
  = spec_full_release raw.
Proof.
  unfold spec_full_release, Semver.prerelease_of, Semver.valid.
  destruct (Semver.parse raw) as [v|] eqn:P; simpl; [|reflexivity].
  destruct (Semver.prerelease v) eqn:R; simpl; [|reflexivity].
  destruct (String.eqb (Semver.version v) raw) eqn:E; simpl; [|reflexivity].
  apply String.eqb_eq in E. rewrite E.
  destruct raw; [discriminate P | reflexivity].
Qed.

Lemma firstValid_spec (tags : list Tag) :
  firstValid tags = find (fun tag => spec_full_release (name tag)) tags.
Proof.
  unfold firstValid, fullReleases. rewrite find_filter.
  apply find_pointwise. intros t. apply full_release_test.
Qed.

(** C1: for every list of tags the baseline [lastTag] is the name of the
    first tag, in the given order, that parses as a semantic version, has no
    pre-release component and re-serializes to its raw name, and the literal
    0.0.0 when there is none; for 1.2.3, 2.0.0-rc.1, bogus it is 1.2.3. *)
Theorem C1_baseline_first_full_release :
  (forall tags : list Tag, lastTag tags = spec_baseline tags)
  /\ lastTag [mkTag "1.2.3"; mkTag "2.0.0-rc.1"; mkTag "bogus"] = "1.2.3".
Proof.
  split; [|reflexivity].
  intros tags. unfold lastTag, spec_baseline.
  rewrite firstValid_spec. reflexivity.
Qed.

(** ** Branch classification *)

Lemma find_first {A} (p : A -> bool) (l : list A) (x : A) :
  find p l = Some x <->
  exists before after,
    l = (before ++ x :: after)%list /\ p x = true /\ Forall (fun y => p y = false) before.
Proof.
  split.
  - induction l as [|y l IH]; simpl; [discriminate|].
    destruct (p y) eqn:Py.
    + intros [= ->]. exists [], l. repeat split; auto.
    + intros F. destruct (IH F) as (b & a & -> & Px & Hb).
      exists (y :: b), a. repeat split; auto.
  - intros (b & a & -> & Px & Hb).
    induction Hb as [|y b Py Hb IH]; simpl.
    + rewrite Px. reflexivity.
    + rewrite Py. exact IH.
Qed.

Lemma find_none_iff {A} (p : A -> bool) (l : list A) :
  find p l = None <-> Forall (fun y => p y = false) l.
Proof.
  induction l as [|y l IH]; simpl.
  - split; auto.
  - destruct (p y) eqn:Py; split.
    + discriminate.
    + intros F. inversion F; congruence.
    + intros F. constructor; [assumption | apply IH, F].
    + intros F. inversion F; subst. apply IH. assumption.
Qed.

Lemma prefix_cons_inv (a : ascii) (s1 s2 : string) :
  String.prefix (String a s1) s2 = true ->
  exists s2', s2 = String a s2' /\ String.prefix s1 s2' = true.
Proof.
  destruct s2 as [|b s2]; cbn [String.prefix]; [discriminate|].
  destruct (ascii_dec a b) as [->|]; [|discriminate].
  intros H. exists s2. split; [reflexivity | exact H].
Qed.

(** The first two characters of a branch name that starts with a literal
    decide the other patterns. *)
Ltac other_prefix H :=
  let s1 := fresh "s" in
  let s2 := fresh "s" in
  apply prefix_cons_inv in H as (s1 & -> & H);
  apply prefix_cons_inv in H as (s2 & -> & _);
  reflexivity.

Lemma classify_fix (branch : string) :
  String.prefix "fix/" branch = true ->
  find_pattern branch = Some (mkBranchType (StartsWith "fix/") patch "fix").
Proof.
  intros H. unfold find_pattern, branchTypes, test. simpl find.
  rewrite H. reflexivity.
Qed.

Lemma classify_feature (branch : string) :
  String.prefix "feature/" branch = true ->
  find_pattern branch = Some (mkBranchType (StartsWith "feature/") minor "feature").
Proof.
  intros H. unfold find_pattern, branchTypes, test. simpl find.
  rewrite H.
  replace (String.prefix "fix/" branch) with false; [reflexivity|].
  clear -H. other_prefix H.
Qed.

Lemma classify_release (branch : string) :
  String.prefix "release/" branch = true ->
  find_pattern branch = Some (mkBranchType (StartsWith "release/") major "release").
Proof.
  intros H. unfold find_pattern, branchTypes, test. simpl find.
  rewrite H.
  replace (String.prefix "fix/" branch) with false by (clear -H; other_prefix H).
  replace (String.prefix "feature/" branch) with false by (clear -H; other_prefix H).
  reflexivity.
Qed.

Lemma classify_chore (branch : string) :
  String.prefix "chore/" branch = true ->
  find_pattern branch = Some (mkBranchType (StartsWith "chore/") chore "chore").
Proof.
  intros H. unfold find_pattern, branchTypes, test. simpl find.
  rewrite H.
  replace (String.prefix "fix/" branch) with false by (clear -H; other_prefix H).
  replace (String.prefix "feature/" branch) with false by (clear -H; other_prefix H).
  replace (String.prefix "release/" branch) with false by (clear -H; other_prefix H).
  reflexivity.
Qed.

(** C5: classification returns the first rule of [branchTypes], in list
    order, whose anchored pattern matches the branch name; a name matching
    ^fix/ yields patch and label fix, ^feature/ minor and feature,
    ^release/ major and release, ^chore/ chore and chore. *)
Theorem C5_first_matching_rule (branch : string) :
  (forall r : BranchType,
      find_pattern branch = Some r <->
      exists before after,
        branchTypes = (before ++ r :: after)%list
        /\ test (pattern r) branch = true
        /\ Forall (fun r' => test (pattern r') branch = false) before)
  /\ (test (StartsWith "fix/") branch = true ->
      exists r, find_pattern branch = Some r /\ bump r = patch /\ label r = "fix")
  /\ (test (StartsWith "feature/") branch = true ->
      exists r, find_pattern branch = Some r /\ bump r = minor /\ label r = "feature")
  /\ (test (StartsWith "release/") branch = true ->
      exists r, find_pattern branch = Some r /\ bump r = major /\ label r = "release")
  /\ (test (StartsWith "chore/") branch = true ->
      exists r, find_pattern branch = Some r /\ bump r = chore /\ label r = "chore").
Proof.
  split; [intros r; exact (find_first (fun r' => test (pattern r') branch) branchTypes r)|].
  unfold test; simpl literal.
  repeat split; intros H; eexists.
  - split; [apply classify_fix, H | split; reflexivity].
  - split; [apply classify_feature, H | split; reflexivity].
  - split; [apply classify_release, H | split; reflexivity].
  - split; [apply classify_chore, H | split; reflexivity].
Qed.

Lemma C5_first_matching_rule_witness :
  test (StartsWith "feature/") "feature/login" = true
  /\ exists r, find_pattern "feature/login" = Some r /\ bump r = minor /\ label r = "feature".
Proof.
  split; [reflexivity|].
  exact (proj1 (proj2 (proj2 (C5_first_matching_rule "feature/login"))) eq_refl).
Defined.

(** ** The shape of a run *)

(** [release], by the answers of the client. *)
Lemma release_eq (octokit : Octokit) (pr : PullRequest) (pat : BranchType) :
  release octokit pr pat =
  match repos_listTags octokit 100 with
  | Rejected msg => ([ListTags 100], Thrown msg)
  | Resolved tags =>
      let pre := negb (pr_merged pr) in
      let nt := newTag tags (pr_head_ref pr) pat pre in
      let params := release_params pr nt in
      match repos_createRelease octokit params with
      | Rejected msg => ((resolution_log tags nt ++ [CreateRelease params])%list, Thrown msg)
      | Resolved status =>
          if negb (status =? 201)%Z && (0 <? pr_number pr)%Z then
            ((resolution_log tags nt ++
              [CreateRelease params; SetFailed "Failed to create release"])%list, Returned)
          else
            let body := created_comment pre nt in
            ((resolution_log tags nt ++
              [CreateRelease params; SetOutput "new_tag" (js_of nt);
               SetOutput "pre_release" (JsBool pre);
               CreateComment (pr_number pr) body])%list,
             match issues_createComment octokit (pr_number pr) body with
             | Resolved _ => Normal tt
             | Rejected msg => Thrown msg
             end)
      end
  end.
Proof.
  unfold release, await, emit, bind, return_, resolution_log.
  destruct (repos_listTags octokit 100) as [tags|msg]; [|reflexivity].
  cbv zeta.
  destruct (repos_createRelease octokit _) as [status|msg]; [|reflexivity].
  destruct (negb (status =? 201)%Z && (0 <? pr_number pr)%Z); [reflexivity|].
  destruct (issues_createComment octokit _ _) as [[]|msg]; reflexivity.
Qed.

(** [proceed] on a pull request, by its gates and its branch. *)
Lemma proceed_eq (octokit : Octokit) (pr : PullRequest) :
  proceed octokit (Some pr) =
  if negb (String.eqb (pr_base_ref pr) "master") && negb (String.eqb (pr_base_ref pr) "main")
  then ([Info "PR not to master, skipping"], Returned)
  else if pr_draft pr then ([Info "PR is a draft, skipping"], Returned)
  else match find_pattern (pr_head_ref pr) with
       | None => ([Warning "branch pattern not expected, skipping"], Returned)
       | Some pat => if is_chore (bump pat) then ([], Returned) else release octokit pr pat
       end.
Proof.
  unfold proceed.
  destruct (negb _ && negb _); [reflexivity|].
  destruct (pr_draft pr); [reflexivity|].
  destruct (find_pattern _); reflexivity.
Qed.

(** A run is the search for the pull request followed by [proceed], and
    the [catch] clause. *)
Lemma run_eq (ev : Event) (octokit : Octokit) :
  run ev octokit =
  (fst (extract ev octokit) ++
   match snd (extract ev octokit) with
   | Normal pr => catch (proceed octokit pr)
   | Returned => []
   | Thrown msg => [SetFailed msg]
   end)%list.
Proof.
  unfold run, run_try, bind, catch.
  destruct (extract ev octokit) as [t [pr| |msg]]; simpl.
  - destruct (proceed octokit pr) as [t' [[]| |msg]]; simpl;
      rewrite ?app_assoc; reflexivity.
  - rewrite app_nil_r. reflexivity.
  - reflexivity.
Qed.

(** The two ways a pull request reaches line 62: a closed and merged
    pull request event, or a created comment holding the marker, whose
    pull request the client returns. *)
Lemma extract_cases (ev : Event) (octokit : Octokit) (pr : PullRequest) :
  snd (extract ev octokit) = Normal (Some pr) ->
  (exists number,
      ev = pull_request "closed" number pr /\ pr_merged pr = true
      /\ fst (extract ev octokit) = [])
  \/ (exists body n,
         ev = issue_comment "created" body n /\ includes body "#tag" = true
         /\ pulls_get octokit n = Resolved pr
         /\ fst (extract ev octokit) = [PullsGet n]).
Proof.
  destruct ev as [action body n|action number p|ename]; cbn [extract].
  - destruct (String.eqb action "created") eqn:A; simpl andb; [|discriminate].
    destruct (includes body "#tag") eqn:I; [|discriminate].
    apply String.eqb_eq in A; subst action.
    unfold await, bind, ret.
    destruct (pulls_get octokit n) as [q|msg] eqn:G; simpl; [|discriminate].
    intros [= ->]. right. exists body, n. rewrite I, G. auto.
  - destruct (String.eqb action "opened") eqn:O.
    + unfold addLabel, call, await, bind, emit, return_.
      destruct (find_pattern (pr_head_ref p)); simpl.
      * destruct (issues_addLabels octokit _ _); simpl; [|discriminate].
        destruct (issues_createComment octokit _ _); discriminate.
      * destruct (issues_createComment octokit _ _); discriminate.
    + destruct (String.eqb action "closed") eqn:C; simpl andb; [|discriminate].
      destruct (pr_merged p) eqn:M; simpl; [|discriminate].
      apply String.eqb_eq in C; subst action.
      intros [= ->]. left. exists number. auto.
  - discriminate.
Qed.

(** Looking for the pull request neither resolves a version nor fails
    unless the client does. *)
Lemma extract_effects (ev : Event) (octokit : Octokit) :
  existsb about_release (fst (extract ev octokit)) = false
  /\ failed (fst (extract ev octokit)) = false.
Proof.
  destruct ev as [action body n|action number p|ename]; cbn [extract].
  - destruct (String.eqb action "created" && includes body "#tag"); [|auto].
    unfold await, bind, ret. destruct (pulls_get octokit n); auto.
  - destruct (String.eqb action "opened").
    + unfold addLabel, call, await, bind, emit, return_.
      destruct (find_pattern (pr_head_ref p)); simpl.
      * destruct (issues_addLabels octokit _ _); simpl; [|auto].
        destruct (issues_createComment octokit _ _); auto.
      * destruct (issues_createComment octokit _ _); auto.
    + destruct (negb _); auto.
  - auto.
Qed.

(** A run whose pull request is stopped before [release]: the search,
    then the trace [t] of the skip. *)
Lemma run_skip (ev : Event) (octokit : Octokit) (pr : PullRequest) (t : list Effect) :
  snd (extract ev octokit) = Normal (Some pr) ->
  proceed octokit (Some pr) = (t, Returned) ->
  existsb about_release t = false ->
  failed t = false ->
  run ev octokit = (fst (extract ev octokit) ++ t)%list
  /\ existsb about_release (run ev octokit) = false
  /\ failed (run ev octokit) = false.
Proof.
  intros E P A F.
  assert (R : run ev octokit = (fst (extract ev octokit) ++ t)%list).
  { rewrite run_eq, E, P. reflexivity. }
  destruct (extract_effects ev octokit) as [A0 F0].
  rewrite R. unfold failed in *. rewrite !existsb_app, A0, F0, A, F. auto.
Qed.

(** C6: when the branch of the pull request is classified chore, the run
    stops before version resolution, whatever the other inputs: no tags are
    listed, no release is created, no output is set; the run does not fail,
    and past the two gates it does nothing at all. *)
Theorem C6_chore_short_circuits
        (ev : Event) (octokit : Octokit) (pr : PullRequest) (pat : BranchType) :
  snd (extract ev octokit) = Normal (Some pr) ->
  find_pattern (pr_head_ref pr) = Some pat ->
  bump pat = chore ->
  existsb about_release (run ev octokit) = false
  /\ failed (run ev octokit) = false
  /\ (gated pr = false -> run ev octokit = fst (extract ev octokit)).
Proof.
  intros E P B.
  pose proof (proceed_eq octokit pr) as Q. rewrite P, B in Q. simpl is_chore in Q.
  unfold gated.
  destruct (negb _ && negb _) eqn:G1; [|destruct (pr_draft pr) eqn:G2].
  - destruct (run_skip _ _ _ _ E Q eq_refl eq_refl) as (_ & A & F).
    repeat split; auto. discriminate.
  - destruct (run_skip _ _ _ _ E Q eq_refl eq_refl) as (_ & A & F).
    repeat split; auto. discriminate.
  - destruct (run_skip _ _ _ _ E Q eq_refl eq_refl) as (R & A & F).
    repeat split; auto. intros _. rewrite R, app_nil_r. reflexivity.
Qed.

Lemma C6_chore_short_circuits_witness :
  existsb about_release (run (example_merge 7 "chore/deps") (example_client ["1.2.3"] 201)) = false
  /\ failed (run (example_merge 7 "chore/deps") (example_client ["1.2.3"] 201)) = false
  /\ (gated (example_merged 7 "chore/deps") = false ->
      run (example_merge 7 "chore/deps") (example_client ["1.2.3"] 201)
      = fst (extract (example_merge 7 "chore/deps") (example_client ["1.2.3"] 201))).
Proof.
  exact (C6_chore_short_circuits
           (example_merge 7 "chore/deps")
           (example_client ["1.2.3"] 201)
           (example_merged 7 "chore/deps")
           (mkBranchType (StartsWith "chore/") chore "chore")
           eq_refl eq_refl eq_refl).
Defined.

(** C7: a branch name that matches none of the four patterns is classified
    as not found, a value and not an exception; [addLabel] only warns; the
    run of its pull request lists no tags, creates no release, sets no
    output and does not fail, and past the two gates it ends with the
    warning of the skip. *)
Theorem C7_unclassified_branch_skips
        (ev : Event) (octokit : Octokit) (pr : PullRequest) :
  snd (extract ev octokit) = Normal (Some pr) ->
  Forall (fun r => test (pattern r) (pr_head_ref pr) = false) branchTypes ->
  find_pattern (pr_head_ref pr) = None
  /\ call (addLabel octokit pr)
     = ([Warning "branch pattern not expected, skipping"], Normal tt)
  /\ existsb about_release (run ev octokit) = false
  /\ failed (run ev octokit) = false
  /\ (gated pr = false ->
      run ev octokit =
      (fst (extract ev octokit) ++ [Warning "branch pattern not expected, skipping"])%list).
Proof.
  intros E N.
  assert (P : find_pattern (pr_head_ref pr) = None).
  { unfold find_pattern.
    apply (find_none_iff (fun r => test (pattern r) (pr_head_ref pr)) branchTypes), N. }
  split; [exact P|].
  split; [unfold addLabel; rewrite P; reflexivity|].
  pose proof (proceed_eq octokit pr) as Q. rewrite P in Q.
  unfold gated.
  destruct (negb _ && negb _) eqn:G1; [|destruct (pr_draft pr) eqn:G2].
  - destruct (run_skip _ _ _ _ E Q eq_refl eq_refl) as (_ & A & F).
    repeat split; auto. discriminate.
  - destruct (run_skip _ _ _ _ E Q eq_refl eq_refl) as (_ & A & F).
    repeat split; auto. discriminate.
  - destruct (run_skip _ _ _ _ E Q eq_refl eq_refl) as (R & A & F).
    repeat split; auto.
Qed.

Lemma C7_unclassified_branch_skips_witness :
  find_pattern "hotfix/deps" = None
  /\ run (example_merge 7 "hotfix/deps") (example_client ["1.2.3"] 201)
     = [Warning "branch pattern not expected, skipping"].
Proof.
  refine (let H := C7_unclassified_branch_skips
                     (example_merge 7 "hotfix/deps")
                     (example_client ["1.2.3"] 201)
                     (example_merged 7 "hotfix/deps") eq_refl _ in
          conj (proj1 H) (proj2 (proj2 (proj2 (proj2 H))) eq_refl)).
  repeat constructor.
Defined.

Lemma existsb_false_In {A} (f : A -> bool) (l : list A) (x : A) :
  existsb f l = false -> In x l -> f x = false.
Proof.
  induction l as [|y l IH]; simpl; [contradiction|].
  intros E [->|I].
  - destruct (f x); [discriminate | reflexivity].
  - apply IH; [|exact I]. destruct (f y); [discriminate | exact E].
Qed.

(** A run that passes the gates with a classified branch that is not a
    chore is the search followed by [release]. *)
Lemma run_released (ev : Event) (octokit : Octokit) (pr : PullRequest) (pat : BranchType) :
  snd (extract ev octokit) = Normal (Some pr) ->
  gated pr = false ->
  find_pattern (pr_head_ref pr) = Some pat ->
  is_chore (bump pat) = false ->
  run ev octokit = (fst (extract ev octokit) ++ catch (release octokit pr pat))%list.
Proof.
  intros E G P B. rewrite run_eq, E, proceed_eq, P, B.
  unfold gated in G. apply orb_false_iff in G as [-> ->]. reflexivity.
Qed.

(** Every release of a run comes from [release]: a pull request was found
    and passed the gates, its branch is classified and not a chore, the tags
    were listed, and the release carries the tag resolved from them. *)
Lemma release_origin (ev : Event) (octokit : Octokit) (p : ReleaseParams) :
  In (CreateRelease p) (run ev octokit) ->
  exists pr pat tags,
    snd (extract ev octokit) = Normal (Some pr)
    /\ gated pr = false
    /\ find_pattern (pr_head_ref pr) = Some pat
    /\ is_chore (bump pat) = false
    /\ repos_listTags octokit 100 = Resolved tags
    /\ p = release_params pr (newTag tags (pr_head_ref pr) pat (negb (pr_merged pr))).
Proof.
  rewrite run_eq. intros H. apply in_app_or in H as [H|H].
  - destruct (extract_effects ev octokit) as [A _].
    pose proof (existsb_false_In _ _ _ A H) as C. discriminate C.
  - destruct (snd (extract ev octokit)) as [[pr|]| |msg] eqn:E.
    + rewrite proceed_eq in H.
      destruct (negb _ && negb _) eqn:G1;
        [simpl in H; destruct H as [H|[]]; discriminate H|].
      destruct (pr_draft pr) eqn:G2;
        [simpl in H; destruct H as [H|[]]; discriminate H|].
      destruct (find_pattern (pr_head_ref pr)) as [pat|] eqn:P;
        [|simpl in H; destruct H as [H|[]]; discriminate H].
      destruct (is_chore (bump pat)) eqn:B; [destruct H|].
      exists pr, pat.
      rewrite release_eq in H.
      destruct (repos_listTags octokit 100) as [tags|msg] eqn:L;
        [|simpl in H; destruct H as [H|[H|[]]]; discriminate H].
      exists tags.
      split; [reflexivity|]. split; [unfold gated; rewrite G1, G2; reflexivity|].
      do 3 (split; [first [reflexivity | assumption]|]).
      cbv zeta in H.
      destruct (repos_createRelease octokit _) as [status|msg];
        [destruct (negb (status =? 201)%Z && (0 <? pr_number pr)%Z);
         [|destruct (issues_createComment octokit _ _) as [[]|msg]]|];
        unfold catch, resolution_log in H; rewrite ?in_app_iff in H; simpl In in H;
        repeat match type of H with
               | _ \/ _ => destruct H as [H|H]
               | False => destruct H
               | CreateRelease _ = CreateRelease _ => injection H as <-; reflexivity
               | _ = _ => discriminate H
               end.
    + simpl in H. destruct H as [H|[]]; discriminate H.
    + destruct H.
    + simpl in H. destruct H as [H|[]]; discriminate H.
Qed.

(** ** The release sink *)

Lemma selected_search_quiet (ev : Event) (octokit : Octokit) (pr : PullRequest) :
  snd (extract ev octokit) = Normal (Some pr) ->
  existsb output_or_comment (fst (extract ev octokit)) = false.
Proof.
  intros E. destruct (extract_cases _ _ _ E) as [(n & _ & _ & ->)|(b & n & _ & _ & _ & ->)];
    reflexivity.
Qed.

(** C9: when the release sink answers with a status other than 201 and the
    number of the pull request is positive, the run fails with the message
    of the release failure, right after the call, and sets no output and
    posts no comment; when the number is not positive the run goes on to
    the outputs and the comment, and fails only if the comment sink does. *)
Theorem C9_release_status
        (ev : Event) (octokit : Octokit) (pr : PullRequest) (pat : BranchType)
        (tags : list Tag) (status : Z) :
  snd (extract ev octokit) = Normal (Some pr) ->
  gated pr = false ->
  find_pattern (pr_head_ref pr) = Some pat ->
  is_chore (bump pat) = false ->
  repos_listTags octokit 100 = Resolved tags ->
  let pre := negb (pr_merged pr) in
  let nt := newTag tags (pr_head_ref pr) pat pre in
  let params := release_params pr nt in
  let body := created_comment pre nt in
  repos_createRelease octokit params = Resolved status ->
  status <> 201%Z ->
  ((0 < pr_number pr)%Z ->
   run ev octokit =
   (fst (extract ev octokit) ++ resolution_log tags nt ++
    [CreateRelease params; SetFailed "Failed to create release"])%list
   /\ failed (run ev octokit) = true
   /\ existsb output_or_comment (run ev octokit) = false)
  /\ ((pr_number pr <= 0)%Z ->
      run ev octokit =
      (fst (extract ev octokit) ++ resolution_log tags nt ++
       [CreateRelease params; SetOutput "new_tag" (js_of nt);
        SetOutput "pre_release" (JsBool pre); CreateComment (pr_number pr) body] ++
       match issues_createComment octokit (pr_number pr) body with
       | Resolved _ => []
       | Rejected msg => [SetFailed msg]
       end)%list
      /\ failed (run ev octokit) =
         match issues_createComment octokit (pr_number pr) body with
         | Resolved _ => false
         | Rejected _ => true
         end).
Proof.
  intros E G P B L pre nt params body C S.
  pose proof (run_released _ _ _ _ E G P B) as R.
  rewrite release_eq, L in R. cbv zeta in R.
  fold pre nt params body in R. rewrite C in R.
  apply Z.eqb_neq in S.
  destruct (extract_effects ev octokit) as [_ F0].
  pose proof (selected_search_quiet _ _ _ E) as Q0.
  unfold failed in *.
  split; intros N.
  - apply Z.ltb_lt in N. rewrite S, N in R. simpl in R.
    split; [exact R|]. rewrite R.
    rewrite !existsb_app, F0, Q0. split; reflexivity.
  - apply Z.ltb_ge in N. rewrite S, N in R. simpl andb in R. cbv iota in R.
    destruct (issues_createComment octokit (pr_number pr) body) as [[]|msg];
      simpl catch in R; rewrite R; rewrite !existsb_app, F0.
    + split; reflexivity.
    + split; reflexivity.
Qed.

Lemma C9_release_status_witness :
  failed (run (example_merge 7 "release/v2") (example_client ["1.2.3"] 500)) = true
  /\ existsb output_or_comment
       (run (example_merge 7 "release/v2") (example_client ["1.2.3"] 500)) = false.
Proof.
  refine (let H := proj1 (C9_release_status
                     (example_merge 7 "release/v2")
                     (example_client ["1.2.3"] 500)
                     (example_merged 7 "release/v2")
                     (mkBranchType (StartsWith "release/") major "release")
                     [mkTag "1.2.3"] 500
                     eq_refl eq_refl eq_refl eq_refl eq_refl eq_refl _) _ in
          proj2 H).
  - discriminate.
  - reflexivity.
Defined.

(** ** Pre-releases and merged pull requests *)

(** C10: the pre-release flag of every release a run creates is the
    negation of the merged flag of its pull request; a release from a
    pull request event is final, and a pre-release comes from a created
    comment whose pull request, as the client returns it, is not merged. *)
Theorem C10_prerelease_is_not_merged
        (ev : Event) (octokit : Octokit) (p : ReleaseParams) :
  In (CreateRelease p) (run ev octokit) ->
  exists pr,
    snd (extract ev octokit) = Normal (Some pr)
    /\ release_prerelease p = negb (pr_merged pr)
    /\ (forall action number q,
           ev = pull_request action number q ->
           action = "closed" /\ q = pr /\ pr_merged pr = true
           /\ release_prerelease p = false)
    /\ (release_prerelease p = true ->
        exists body n,
          ev = issue_comment "created" body n
          /\ includes body "#tag" = true
          /\ pulls_get octokit n = Resolved pr
          /\ pr_merged pr = false).
Proof.
  intros H.
  destruct (release_origin _ _ _ H) as (pr & pat & tags & E & _ & _ & _ & _ & ->).
  exists pr. split; [exact E|]. split; [reflexivity|].
  simpl release_prerelease.
  destruct (extract_cases _ _ _ E) as [(n & -> & M & _)|(b & n & -> & I & G & _)].
  - split.
    + intros action number q [= <- <- <-]. rewrite M. auto.
    + rewrite M. discriminate.
  - split.
    + discriminate.
    + intros N. exists b, n. repeat split; auto.
      destruct (pr_merged pr); [discriminate N | reflexivity].
Qed.

Lemma C10_prerelease_is_not_merged_witness :
  exists pr,
    snd (extract (issue_comment "created" "please #tag" 7) (example_client ["1.2.3"] 201))
    = Normal (Some pr)
    /\ negb (pr_merged (example_open 7 "feature/x")) = negb (pr_merged pr).
Proof.
  refine (let H := C10_prerelease_is_not_merged
                     (issue_comment "created" "please #tag" 7)
                     (example_client ["1.2.3"] 201)
                     (release_params (example_open 7 "feature/x")
                                     (Some "1.3.0-rc-feature-x.0")) _ in
          match H with
          | ex_intro _ pr (conj E (conj M _)) => ex_intro _ pr (conj E M)
          end).
  vm_compute. auto 10.
Defined.

(** ** Increments of the baseline *)

Lemma append_empty_r (s : string) : s ++ "" = s.
Proof. induction s as [|a s IH]; simpl; [reflexivity | rewrite IH; reflexivity]. Qed.

Lemma append_assoc (s t u : string) : (s ++ t) ++ u = s ++ t ++ u.
Proof. induction s as [|a s IH]; simpl; [reflexivity | rewrite IH; reflexivity]. Qed.

Lemma version_release (v : Semver.SemVer) :
  Semver.prerelease v = [] ->
  Semver.version v = core_string (Semver.major v) (Semver.minor v) (Semver.patch v).
Proof.
  intros P. unfold Semver.version, core_string. rewrite P, append_empty_r. reflexivity.
Qed.

Lemma parse_construct (raw : string) (v : Semver.SemVer) :
  Semver.parse raw = Some v -> Semver.construct raw = Some v.
Proof.
  unfold Semver.parse.
  destruct (Semver.MAX_LENGTH <? utf16_length raw)%nat; [discriminate|].
  destruct (Semver.match_full raw); [auto | discriminate].
Qed.

(** The baseline is always a version [semver.inc] accepts, and it has no
    pre-release component. *)
Lemma lastTag_release (tags : list Tag) :
  exists v, Semver.construct (lastTag tags) = Some v /\ Semver.prerelease v = [].
Proof.
  unfold lastTag. rewrite firstValid_spec.
  destruct (find _ tags) as [t|] eqn:F.
  - apply find_some in F as [_ S]. unfold spec_full_release in S.
    destruct (Semver.parse (name t)) as [v|] eqn:P; [|discriminate].
    exists v. split; [apply parse_construct, P|].
    destruct (Semver.prerelease v); [reflexivity | discriminate].
  - eexists. split; reflexivity.
Qed.

Lemma no_hyphen_app (s t : string) :
  no_hyphen (s ++ t) = no_hyphen s && no_hyphen t.
Proof.
  unfold no_hyphen. induction s as [|a s IH]; simpl; [reflexivity|].
  rewrite IH, andb_assoc. reflexivity.
Qed.

Lemma no_hyphen_uint (d : Decimal.uint) : no_hyphen (NilEmpty.string_of_uint d) = true.
Proof. induction d; simpl; auto. Qed.

Lemma no_hyphen_core (a b c : N) : no_hyphen (core_string a b c) = true.
Proof.
  unfold core_string, of_N. rewrite !no_hyphen_app, !no_hyphen_uint. reflexivity.
Qed.

Lemma no_hyphen_includes (s : string) :
  no_hyphen s = true -> includes s "-" = false.
Proof.
  unfold no_hyphen. induction s as [|a s IH]; [reflexivity|].
  cbn [JsString.forallb includes String.prefix].
  intros H. apply andb_true_iff in H as [A S]. rewrite (IH S), orb_false_r.
  destruct (ascii_dec "-" a) as [<-|]; [discriminate A | reflexivity].
Qed.

Lemma inc_release (raw : string) (v : Semver.SemVer) (b : Bump) :
  Semver.construct raw = Some v ->
  Semver.prerelease v = [] ->
  Semver.inc raw (bump_string b) None = spec_increment b v.
Proof.
  intros C P. unfold Semver.inc. rewrite C.
  destruct b; simpl; f_equal.
  - unfold Semver.inc_patch. rewrite version_release by reflexivity.
    simpl. rewrite P. reflexivity.
  - unfold Semver.inc_minor. rewrite version_release by reflexivity.
    simpl. rewrite P. rewrite orb_true_r. reflexivity.
  - unfold Semver.inc_major. rewrite version_release by reflexivity.
    simpl. rewrite P. rewrite !orb_true_r. reflexivity.
Qed.

Lemma spec_increment_some (b : Bump) (v : Semver.SemVer) :
  is_chore b = false ->
  exists s, spec_increment b v = Some s /\ includes s "-" = false.
Proof.
  destruct b; try discriminate; intros _; eexists; (split; [reflexivity|]);
    apply no_hyphen_includes, no_hyphen_core.
Qed.

(** C4: a final resolution is the standard increment of the baseline by the
    bump kind of the branch, [semver.inc] without identifier: the bumped
    component goes up by one, the later ones are reset, and the result holds
    no pre-release suffix; major on the baseline 1.2.3 gives 2.0.0, and no
    tags with a release branch give 1.0.0. *)
Theorem C4_final_resolution (tags : list Tag) (branch : string) (pat : BranchType) :
  is_chore (bump pat) = false ->
  newTag tags branch pat false = Semver.inc (lastTag tags) (bump_string (bump pat)) None
  /\ (exists v s,
         Semver.construct (lastTag tags) = Some v
         /\ spec_increment (bump pat) v = Some s
         /\ newTag tags branch pat false = Some s
         /\ includes s "-" = false)
  /\ (lastTag tags = "1.2.3" -> bump pat = major ->
      newTag tags branch pat false = Some "2.0.0")
  /\ (tags = [] -> test (StartsWith "release/") branch = true ->
      find_pattern branch = Some pat ->
      newTag tags branch pat false = Some "1.0.0").
Proof.
  intros B.
  assert (E : newTag tags branch pat false
              = Semver.inc (lastTag tags) (bump_string (bump pat)) None) by reflexivity.
  split; [exact E|]. split; [|split].
  - destruct (lastTag_release tags) as (v & C & P).
    destruct (spec_increment_some _ v B) as (s & S & H).
    exists v, s. split; [exact C|]. split; [exact S|]. split; [|exact H].
    rewrite E, <- S. apply inc_release; assumption.
  - intros L M. rewrite E, L, M. reflexivity.
  - intros -> T F. rewrite E.
    rewrite (classify_release branch T) in F. injection F as <-. reflexivity.
Qed.

Lemma C4_final_resolution_witness :
  newTag [mkTag "1.2.3"] "release/v2" (mkBranchType (StartsWith "release/") major "release") false
  = Some "2.0.0".
Proof.
  exact (proj1 (proj2 (proj2 (C4_final_resolution
                                [mkTag "1.2.3"] "release/v2"
                                (mkBranchType (StartsWith "release/") major "release")
                                eq_refl))) eq_refl eq_refl).
Defined.

(** ** Release candidates *)

Lemma rcs_first (tags : list Tag) (branch : string) :
  hd_error (rcs tags branch) = first_rc tags branch.
Proof.
  unfold rcs, first_rc. induction tags as [|t tags IH]; simpl; [reflexivity|].
  destruct (includes (name t) (rcName branch)); [reflexivity | exact IH].
Qed.

Lemma rcs_none (tags : list Tag) (branch : string) :
  (forall t, In t tags -> includes (name t) (rcName branch) = false) ->
  rcs tags branch = [].
Proof.
  unfold rcs. induction tags as [|t tags IH]; simpl; [reflexivity|].
  intros H. rewrite (H t) by (left; reflexivity). apply IH.
  intros u I. apply H. right. exact I.
Qed.

(** Only the first separator of a branch name is replaced. *)
Lemma replace_first_slash (a b : string) :
  includes a "/" = false ->
  replace (a ++ "/" ++ b) "/" "-" = a ++ "-" ++ b.
Proof.
  induction a as [|c a IH]; [reflexivity|].
  cbn [includes String.prefix append replace].
  intros H. apply orb_false_iff in H as [C I].
  destruct (Ascii.eqb c "/") eqn:E.
  - apply Ascii.eqb_eq in E; subst c. destruct a; discriminate C.
  - f_equal. exact (IH I).
Qed.

Lemma version_fresh (a b c : N) (id : string) (bld : list string) :
  Semver.version (Semver.mkSemVer a b c [Semver.IdStr id; Semver.IdNum 0] bld)
  = core_string a b c ++ "-" ++ id ++ ".0".
Proof.
  unfold Semver.version, core_string.
  cbn [Semver.major Semver.minor Semver.patch Semver.prerelease map join Semver.id_to_string].
  rewrite !append_assoc. reflexivity.
Qed.

(** A fresh pre-release of a version without pre-release component: the
    standard increment, then the identifier and the counter 0. *)
Lemma inc_fresh_prerelease (raw : string) (v : Semver.SemVer) (b : Bump) (id : string) :
  Semver.construct raw = Some v ->
  truthy id = true ->
  Semver.inc raw ("pre" ++ bump_string b) (Some id)
  = option_map (fun core => core ++ "-" ++ id ++ ".0") (spec_increment b v).
Proof.
  intros C T. unfold Semver.inc. rewrite C.
  destruct b; cbn [bump_string spec_increment option_map]; [| | |reflexivity].
  - change (Semver.inc_method v ("pre" ++ "patch") (Some id))
      with (Some (Semver.inc_pre (Semver.inc_patch (Semver.set_prerelease v [])) (Some id))).
    unfold Semver.inc_pre, Semver.inc_patch, Semver.set_prerelease.
    cbn [Semver.prerelease Semver.major Semver.minor Semver.patch Semver.build
         nth_error Semver.strict_eq_id option_map].
    rewrite T. cbn iota. rewrite version_fresh. reflexivity.
  - change (Semver.inc_method v ("pre" ++ "minor") (Some id))
      with (Some (Semver.inc_pre
                    (Semver.mkSemVer (Semver.major v) (Semver.minor v + 1) 0 []
                                     (Semver.build v)) (Some id))).
    unfold Semver.inc_pre, Semver.set_prerelease.
    cbn [Semver.prerelease Semver.major Semver.minor Semver.patch Semver.build
         nth_error Semver.strict_eq_id option_map].
    rewrite T. cbn iota. rewrite version_fresh. reflexivity.
  - change (Semver.inc_method v ("pre" ++ "major") (Some id))
      with (Some (Semver.inc_pre
                    (Semver.mkSemVer (Semver.major v + 1) 0 0 []
                                     (Semver.build v)) (Some id))).
    unfold Semver.inc_pre, Semver.set_prerelease.
    cbn [Semver.prerelease Semver.major Semver.minor Semver.patch Semver.build
         nth_error Semver.strict_eq_id option_map].
    rewrite T. cbn iota. rewrite version_fresh. reflexivity.
Qed.

(** C3: a pre-release resolution with no tag whose name includes the
    identifier of the branch is [semver.inc] of the baseline by pre and the
    bump kind with the identifier rc- and the branch name, its first
    separator replaced by a hyphen: the standard increment of the baseline
    followed by that identifier and the counter 0; on feature/x with the
    baseline 1.2.3 the core is 1.3.0 and the pre-release component holds
    rc-feature-x. *)
Theorem C3_fresh_release_candidate (tags : list Tag) (branch : string) (pat : BranchType) :
  (forall t, In t tags -> includes (name t) (rcName branch) = false) ->
  newTag tags branch pat true
  = Semver.inc (lastTag tags) ("pre" ++ bump_string (bump pat)) (Some (rcName branch))
  /\ (forall a b, includes a "/" = false -> branch = a ++ "/" ++ b ->
      rcName branch = "rc-" ++ a ++ "-" ++ b)
  /\ (exists v,
         Semver.construct (lastTag tags) = Some v
         /\ newTag tags branch pat true
            = option_map (fun core => core ++ "-" ++ rcName branch ++ ".0")
                         (spec_increment (bump pat) v))
  /\ (branch = "feature/x" -> find_pattern branch = Some pat -> lastTag tags = "1.2.3" ->
      newTag tags branch pat true = Some "1.3.0-rc-feature-x.0"
      /\ Semver.parse "1.3.0-rc-feature-x.0"
         = Some (Semver.mkSemVer 1 3 0 [Semver.IdStr "rc-feature-x"; Semver.IdNum 0] [])).
Proof.
  intros H.
  assert (E : newTag tags branch pat true
              = Semver.inc (lastTag tags) ("pre" ++ bump_string (bump pat))
                           (Some (rcName branch))).
  { unfold newTag. rewrite (rcs_none _ _ H). reflexivity. }
  split; [exact E|]. split; [|split].
  - intros a b S ->. unfold rcName. rewrite replace_first_slash by exact S. reflexivity.
  - destruct (lastTag_release tags) as (v & C & _).
    exists v. split; [exact C|]. rewrite E.
    apply inc_fresh_prerelease; [exact C | reflexivity].
  - intros -> F L. rewrite E, L.
    rewrite (classify_feature "feature/x" eq_refl) in F. injection F as <-.
    split; reflexivity.
Qed.

Lemma C3_fresh_release_candidate_witness :
  newTag [mkTag "1.2.3"; mkTag "2.0.0-rc.1"] "feature/x"
         (mkBranchType (StartsWith "feature/") minor "feature") true
  = Some "1.3.0-rc-feature-x.0".
Proof.
  refine (proj1 (proj2 (proj2 (proj2 (C3_fresh_release_candidate
            [mkTag "1.2.3"; mkTag "2.0.0-rc.1"] "feature/x"
            (mkBranchType (StartsWith "feature/") minor "feature") _)))
            eq_refl eq_refl eq_refl)).
  intros t [<-|[<-|[]]]; reflexivity.
Defined.

Lemma bump_last_number_spec (p : list Semver.Identifier) :
  match Semver.bump_last_number p with
  | Some p' =>
      exists l1 n l2,
        p = (l1 ++ Semver.IdNum n :: l2)%list
        /\ p' = (l1 ++ Semver.IdNum (n + 1) :: l2)%list
        /\ Forall is_string_id l2
  | None => Forall is_string_id p
  end.
Proof.
  induction p as [|x p IH]; simpl; [constructor|].
  destruct (Semver.bump_last_number p) as [p'|].
  - destruct IH as (l1 & n & l2 & -> & -> & F).
    exists (x :: l1), n, l2. auto.
  - destruct x as [n|s].
    + exists [], n, p. auto.
    + constructor; [exact I | exact IH].
Qed.

(** The increment of a version that has a pre-release component, by
    prerelease and without identifier: the core and the build are kept and
    the counter goes up. *)
Lemma inc_prerelease_counter (raw : string) (v : Semver.SemVer) :
  Semver.construct raw = Some v ->
  Semver.prerelease v <> [] ->
  exists p',
    counter_bumped (Semver.prerelease v) p'
    /\ Semver.inc raw "prerelease" None
       = Some (Semver.version (Semver.set_prerelease v p')).
Proof.
  intros C P. unfold Semver.inc. rewrite C.
  change (Semver.inc_method v "prerelease" None)
    with (Some (Semver.inc_pre
                  (match Semver.prerelease v with [] => Semver.inc_patch v | _ => v end)
                  None)).
  destruct (Semver.prerelease v) as [|x p] eqn:E; [contradiction P; reflexivity|].
  unfold Semver.inc_pre. rewrite E.
  pose proof (bump_last_number_spec (x :: p)) as B.
  destruct (Semver.bump_last_number (x :: p)) as [p'|].
  - destruct B as (l1 & n & l2 & -> & -> & F).
    eexists. split; [apply bumped_number, F | reflexivity].
  - eexists. split; [apply bumped_append, B | reflexivity].
Qed.

Lemma newTag_existing_rc (tags : list Tag) (branch : string) (pat : BranchType) (rc : Tag) :
  first_rc tags branch = Some rc ->
  newTag tags branch pat true = Semver.inc (name rc) "prerelease" None.
Proof.
  intros F. rewrite <- rcs_first in F. unfold newTag.
  destruct (rcs tags branch) as [|rc0 rest]; [discriminate F|].
  injection F as ->. reflexivity.
Qed.

Lemma parse_prerelease_id_read (id : string) :
  Semver.parse_prerelease_id id
  = if read_as_number id then Semver.IdNum (digits_value id) else Semver.IdStr id.
Proof.
  unfold Semver.parse_prerelease_id, read_as_number.
  destruct (nonempty id && JsString.forallb is_digit id); [|reflexivity].
  cbn [andb]. destruct (digits_value id <? Semver.MAX_SAFE_INTEGER)%N; reflexivity.
Qed.

(** The pre-release identifiers of a version are the dot-separated
    identifiers of the text after the first hyphen, each read by
    [parse_prerelease_id]. *)
Lemma construct_prerelease (raw : string) (v : Semver.SemVer) :
  Semver.construct raw = Some v ->
  Semver.prerelease v <> [] ->
  exists g p,
    Semver.match_full (trim raw) = Some g
    /\ Semver.g_prerelease g = Some p
    /\ Semver.prerelease v = map Semver.parse_prerelease_id (split "." p).
Proof.
  unfold Semver.construct.
  destruct (Semver.MAX_LENGTH <? utf16_length raw)%nat; [discriminate|].
  destruct (Semver.match_full (trim raw)) as [g|]; [|discriminate].
  destruct (Semver.MAX_SAFE_INTEGER <? _)%N; [discriminate|].
  destruct (Semver.MAX_SAFE_INTEGER <? _)%N; [discriminate|].
  destruct (Semver.MAX_SAFE_INTEGER <? _)%N; [discriminate|].
  intros [= <-]. cbn [Semver.prerelease]. intros P.
  exists g. destruct (Semver.g_prerelease g) as [p|]; [|contradiction P; reflexivity].
  exists p. auto.
Qed.

(** A tag name padded with no-break spaces is trimmed by the constructor
    and incremented like the bare name. *)
Example padded_rc_is_incremented :
  Semver.inc (bytes [194; 160] ++ "1.3.0-rc-feature-x.0" ++ bytes [194; 160])
             "prerelease" None
  = Some "1.3.0-rc-feature-x.1".
Proof. reflexivity. Qed.

(** C2, as amended: when a tag name includes the identifier of the branch,
    a pre-release resolution is [semver.inc] by prerelease of the first such
    tag in the given order, whatever the bump kind and the baseline; when
    that tag, trimmed, is a version with a pre-release component, the core
    major.minor.patch is unchanged and, in the pre-release component, the
    last identifier read as a number goes up by one, or the counter 0 is
    appended when no identifier is read as a number.  An identifier is read
    as a number when it is made of digits and its value is below
    9007199254740991: the identifier 9007199254740991 is kept and the
    counter 0 appended. *)
Theorem C2_existing_rc_counter
        (tags : list Tag) (branch : string) (pat : BranchType) (rc : Tag) :
  first_rc tags branch = Some rc ->
  newTag tags branch pat true = Semver.inc (name rc) "prerelease" None
  /\ (forall tags' pat',
         first_rc tags' branch = Some rc ->
         newTag tags' branch pat' true = newTag tags branch pat true)
  /\ (forall v,
         Semver.construct (name rc) = Some v ->
         Semver.prerelease v <> [] ->
         exists v',
           newTag tags branch pat true = Some (Semver.version v')
           /\ Semver.major v' = Semver.major v
           /\ Semver.minor v' = Semver.minor v
           /\ Semver.patch v' = Semver.patch v
           /\ counter_bumped (Semver.prerelease v) (Semver.prerelease v'))
  /\ (forall v,
         Semver.construct (name rc) = Some v ->
         Semver.prerelease v <> [] ->
         exists g p,
           Semver.match_full (trim (name rc)) = Some g
           /\ Semver.g_prerelease g = Some p
           /\ Semver.prerelease v
              = map (fun id => if read_as_number id
                               then Semver.IdNum (digits_value id)
                               else Semver.IdStr id)
                    (split "." p))
  /\ (name rc = "1.3.0-rc-feature-x.9007199254740991" ->
      read_as_number "9007199254740991" = false
      /\ newTag tags branch pat true = Some "1.3.0-rc-feature-x.9007199254740991.0").
Proof.
  intros F.
  pose proof (newTag_existing_rc _ _ pat _ F) as E.
  split; [exact E|]. split; [|split; [|split]].
  - intros tags' pat' F'. rewrite E. apply newTag_existing_rc, F'.
  - intros v C P.
    destruct (inc_prerelease_counter _ _ C P) as (p' & B & I).
    exists (Semver.set_prerelease v p'). rewrite E, I. auto.
  - intros v C P.
    destruct (construct_prerelease _ _ C P) as (g & p & M & G & R).
    exists g, p. split; [exact M|]. split; [exact G|].
    rewrite R. apply map_ext. intros id. apply parse_prerelease_id_read.
  - intros N. split; [reflexivity|]. rewrite E, N. reflexivity.
Qed.

Lemma C2_existing_rc_counter_witness :
  newTag [mkTag "1.2.3"; mkTag "1.3.0-rc-feature-x.0"] "feature/x"
         (mkBranchType (StartsWith "feature/") minor "feature") true
  = Some "1.3.0-rc-feature-x.1".
Proof.
  exact (eq_trans
           (proj1 (C2_existing_rc_counter
                     [mkTag "1.2.3"; mkTag "1.3.0-rc-feature-x.0"] "feature/x"
                     (mkBranchType (StartsWith "feature/") minor "feature")
                     (mkTag "1.3.0-rc-feature-x.0") eq_refl))
           eq_refl).
Defined.

(** C2, as stated, fails: a tag whose build metadata holds the identifier
    of the branch matches, has no pre-release component, and its increment
    by prerelease moves the patch, so that the core of the matching tag is
    not kept. *)
Lemma C2_core_changes_counterexample :
  first_rc [mkTag "1.2.3+rc-feature-x"] "feature/x" = Some (mkTag "1.2.3+rc-feature-x")
  /\ newTag [mkTag "1.2.3+rc-feature-x"] "feature/x"
            (mkBranchType (StartsWith "feature/") minor "feature") true
     = Some "1.2.4-0"
  /\ core_of (Some "1.2.3+rc-feature-x") = Some (1, 2, 3)%N
  /\ core_of (Some "1.2.4-0") = Some (1, 2, 4)%N
  /\ ~ (forall (tags : list Tag) (branch : string) (pat : BranchType) (rc : Tag),
           first_rc tags branch = Some rc ->
           core_of (newTag tags branch pat true) = core_of (Some (name rc))).
Proof.
  repeat split.
  intros H.
  specialize (H [mkTag "1.2.3+rc-feature-x"] "feature/x"
                (mkBranchType (StartsWith "feature/") minor "feature")
                (mkTag "1.2.3+rc-feature-x") eq_refl).
  vm_compute in H. discriminate H.
Qed.

(** ** Determinism and order *)

(** C8: the tag of a release is a function of the listed tags, in their
    order, of the branch, of its bump kind and of the merged flag: two runs
    that agree on them create releases with the same tag, whatever else
    differs; and the order matters: two lists holding the same tags in
    different orders give different baselines and different tags. *)
Theorem C8_deterministic_order_sensitive :
  (forall (ev1 ev2 : Event) (octokit1 octokit2 : Octokit) (pr1 pr2 : PullRequest)
          (tags : list Tag) (p1 p2 : ReleaseParams),
      snd (extract ev1 octokit1) = Normal (Some pr1) ->
      snd (extract ev2 octokit2) = Normal (Some pr2) ->
      repos_listTags octokit1 100 = Resolved tags ->
      repos_listTags octokit2 100 = Resolved tags ->
      pr_head_ref pr1 = pr_head_ref pr2 ->
      pr_merged pr1 = pr_merged pr2 ->
      In (CreateRelease p1) (run ev1 octokit1) ->
      In (CreateRelease p2) (run ev2 octokit2) ->
      tag_name p1 = tag_name p2)
  /\ (forall (tags : list Tag) (branch : string) (pat1 pat2 : BranchType) (pre : bool),
         bump pat1 = bump pat2 ->
         newTag tags branch pat1 pre = newTag tags branch pat2 pre)
  /\ (exists (tags1 tags2 : list Tag) (branch : string) (pat : BranchType) (pre : bool),
         Permutation tags1 tags2
         /\ lastTag tags1 <> lastTag tags2
         /\ newTag tags1 branch pat pre <> newTag tags2 branch pat pre).
Proof.
  split; [|split].
  - intros ev1 ev2 o1 o2 pr1 pr2 tags p1 p2 E1 E2 L1 L2 B M I1 I2.
    destruct (release_origin _ _ _ I1) as (q1 & pat1 & t1 & E1' & _ & P1 & _ & L1' & ->).
    destruct (release_origin _ _ _ I2) as (q2 & pat2 & t2 & E2' & _ & P2 & _ & L2' & ->).
    rewrite E1 in E1'. injection E1' as <-.
    rewrite E2 in E2'. injection E2' as <-.
    rewrite L1 in L1'. injection L1' as <-.
    rewrite L2 in L2'. injection L2' as <-.
    rewrite B in P1. rewrite P1 in P2. injection P2 as <-.
    simpl tag_name. rewrite B, M. reflexivity.
  - intros tags branch pat1 pat2 pre B. unfold newTag. rewrite B. reflexivity.
  - exists [mkTag "1.0.0"; mkTag "2.0.0"], [mkTag "2.0.0"; mkTag "1.0.0"],
           "fix/bug", (mkBranchType (StartsWith "fix/") patch "fix"), false.
    split; [apply perm_swap|]. split; intros H; vm_compute in H; discriminate H.
Qed.

Lemma C8_deterministic_order_sensitive_witness :
  tag_name (release_params (example_merged 7 "fix/bug") (Some "1.0.1"))
  = tag_name (release_params (mkPullRequest 9 "other" "text" "fix/bug" "master" false true)
                             (Some "1.0.1")).
Proof.
  refine (proj1 C8_deterministic_order_sensitive
            (example_merge 7 "fix/bug")
            (pull_request "closed" 9
               (mkPullRequest 9 "other" "text" "fix/bug" "master" false true))
            (example_client ["1.0.0"; "2.0.0"] 201)
            (example_client ["1.0.0"; "2.0.0"] 500)
            (example_merged 7 "fix/bug")
            (mkPullRequest 9 "other" "text" "fix/bug" "master" false true)
            [mkTag "1.0.0"; mkTag "2.0.0"]
            _ _
            eq_refl eq_refl eq_refl eq_refl eq_refl eq_refl _ _).
  - vm_compute. auto 10.
  - vm_compute. auto 10.
Defined.


(** * Further properties of [run] *)

(** All the paths of a run: the event, the answers of the client and the
    tests of [run] are split, and the traces are left as explicit lists. *)
Ltac split_extract ev octokit :=
  let a := fresh "action" in
  let b := fresh "body" in
  let n := fresh "n" in
  let p := fresh "payload_pr" in
  destruct ev as [a b n|a n p|?]; cbn [extract];
  [ destruct (String.eqb a "created" && includes b "#tag") eqn:?;
    [ unfold await, bind, ret; destruct (pulls_get octokit n) eqn:? | ]
  | destruct (String.eqb a "opened") eqn:?;
    [ unfold addLabel, call, await, bind, emit, return_;
      destruct (find_pattern (pr_head_ref p)) eqn:?;
      [ destruct (issues_addLabels octokit _ _) as [[]|?] eqn:? | ];
      try destruct (issues_createComment octokit _ _) as [[]|?] eqn:?
    | destruct (negb (String.eqb a "closed" && pr_merged p)) eqn:? ]
  | ];
  cbn [fst snd ret return_].

Ltac split_proceed octokit pr :=
  rewrite (proceed_eq octokit pr);
  destruct (negb (String.eqb (pr_base_ref pr) "master")
            && negb (String.eqb (pr_base_ref pr) "main")) eqn:?;
  [ | destruct (pr_draft pr) eqn:?;
      [ | destruct (find_pattern (pr_head_ref pr)) as [?pat|] eqn:?;
          [ destruct (is_chore (bump pat)) eqn:?;
            [ | rewrite (release_eq octokit pr pat);
                destruct (repos_listTags octokit 100) as [?tags|?] eqn:?;
                [ cbv zeta;
                  destruct (repos_createRelease octokit _) as [?status|?] eqn:?;
                  [ destruct (negb (status =? 201)%Z && (0 <? pr_number pr)%Z) eqn:?;
                    [ | destruct (issues_createComment octokit _ _) as [[]|?] eqn:? ]
                  | ]
                | ] ]
          | ] ] ].

Ltac split_run ev octokit :=
  rewrite (run_eq ev octokit);
  split_extract ev octokit;
  repeat match goal with
         | |- context [proceed octokit (Some ?pr)] => split_proceed octokit pr
         end;
  unfold proceed, catch, resolution_log, emit, return_, bind;
  cbn [fst snd app].

(** X5: a run that fails calls [core.setFailed] exactly once, and does
    nothing after it. *)
Theorem failure_is_final (ev : Event) (octokit : Octokit) :
  failed (run ev octokit) = true ->
  exists t msg, run ev octokit = (t ++ [SetFailed msg])%list /\ failed t = false.
Proof.
  unfold failed. split_run ev octokit; cbn [existsb is_SetFailed orb];
    try discriminate; intros _;
    match goal with
    | |- exists t msg, ?l = _ /\ _ => exists (removelast l)
    end;
    eexists; (split; [cbn [removelast app]; reflexivity | reflexivity]).
Qed.

Lemma failure_is_final_witness :
  exists t msg,
    run (example_merge 7 "release/v2") (example_client ["1.2.3"] 500)
    = (t ++ [SetFailed msg])%list
    /\ failed t = false.
Proof.
  exact (failure_is_final (example_merge 7 "release/v2")
                          (example_client ["1.2.3"] 500) eq_refl).
Defined.

(** X1: a release is created only for a pull request whose base is master
    or main, that is not a draft, and whose branch is classified with a bump
    kind other than chore. *)
Theorem release_requires_gates (ev : Event) (octokit : Octokit) (p : ReleaseParams) :
  In (CreateRelease p) (run ev octokit) ->
  exists pr pat,
    snd (extract ev octokit) = Normal (Some pr)
    /\ (pr_base_ref pr = "master" \/ pr_base_ref pr = "main")
    /\ pr_draft pr = false
    /\ find_pattern (pr_head_ref pr) = Some pat
    /\ bump pat <> chore.
Proof.
  intros H.
  destruct (release_origin _ _ _ H) as (pr & pat & tags & E & G & P & B & _).
  exists pr, pat. unfold gated in G.
  apply orb_false_iff in G as [G D].
  repeat split; auto.
  - apply andb_false_iff in G as [G|G]; apply negb_false_iff, String.eqb_eq in G; auto.
  - intros C. rewrite C in B. discriminate B.
Qed.

Lemma release_requires_gates_witness :
  exists pr pat,
    snd (extract (example_merge 7 "fix/bug") (example_client ["1.0.0"] 201))
    = Normal (Some pr)
    /\ (pr_base_ref pr = "master" \/ pr_base_ref pr = "main")
    /\ pr_draft pr = false
    /\ find_pattern (pr_head_ref pr) = Some pat
    /\ bump pat <> chore.
Proof.
  apply (release_requires_gates
           (example_merge 7 "fix/bug") (example_client ["1.0.0"] 201) example_release).
  vm_compute. auto 10.
Defined.

(** X2: every release is created as not a draft, with the title and the
    body of the pull request; a pre-release targets the head branch, a final
    release the base branch, which is master or main. *)
Theorem release_parameters (ev : Event) (octokit : Octokit) (p : ReleaseParams) :
  In (CreateRelease p) (run ev octokit) ->
  exists pr,
    snd (extract ev octokit) = Normal (Some pr)
    /\ release_draft p = false
    /\ release_name p = pr_title pr
    /\ release_body p = pr_body pr
    /\ (release_prerelease p = true -> target_commitish p = pr_head_ref pr)
    /\ (release_prerelease p = false ->
        target_commitish p = pr_base_ref pr
        /\ (target_commitish p = "master" \/ target_commitish p = "main")).
Proof.
  intros H.
  destruct (release_requires_gates _ _ _ H) as (pr' & pat' & E' & M & _).
  destruct (release_origin _ _ _ H) as (pr & pat & tags & E & _ & _ & _ & _ & ->).
  rewrite E in E'. injection E' as <-.
  exists pr. cbn [release_params release_draft release_name release_body
                  release_prerelease target_commitish].
  do 4 (split; [first [exact E | reflexivity]|]).
  split; intros N; rewrite N; auto.
Qed.

Lemma release_parameters_witness :
  exists pr,
    snd (extract (example_merge 7 "fix/bug") (example_client ["1.0.0"] 201))
    = Normal (Some pr)
    /\ release_draft example_release = false
    /\ release_name example_release = pr_title pr
    /\ release_body example_release = pr_body pr
    /\ (release_prerelease example_release = true ->
        target_commitish example_release = pr_head_ref pr)
    /\ (release_prerelease example_release = false ->
        target_commitish example_release = pr_base_ref pr
        /\ (target_commitish example_release = "master"
            \/ target_commitish example_release = "main")).
Proof.
  apply (release_parameters
           (example_merge 7 "fix/bug") (example_client ["1.0.0"] 201) example_release).
  vm_compute. auto 10.
Defined.

(** X3: when a pull request is opened, the run labels it with the label of
    the first rule its branch matches, or warns when there is none, then
    posts the hint on the pull request of the payload and stops: no tag is
    listed and no release created; when the label call is rejected the hint
    is not posted. *)
Theorem opened_labels_then_hints (number : Z) (pr : PullRequest) (octokit : Octokit) :
  let hint :=
    (CreateComment number hint_comment ::
     match issues_createComment octokit number hint_comment with
     | Resolved _ => []
     | Rejected msg => [SetFailed msg]
     end) in
  run (pull_request "opened" number pr) octokit =
  match find_pattern (pr_head_ref pr) with
  | None => Warning "branch pattern not expected, skipping" :: hint
  | Some pat =>
      match issues_addLabels octokit (pr_number pr) [label pat] with
      | Resolved _ => AddLabels (pr_number pr) [label pat] :: hint
      | Rejected msg => [AddLabels (pr_number pr) [label pat]; SetFailed msg]
      end
  end.
Proof.
  cbv zeta. rewrite run_eq. cbn [extract String.eqb Ascii.eqb Bool.eqb].
  unfold hint_comment, addLabel, call, await, bind, emit, return_.
  destruct (find_pattern (pr_head_ref pr)) as [pat|].
  - destruct (issues_addLabels octokit _ _) as [[]|msg]; [|reflexivity].
    destruct (issues_createComment octokit _ _) as [[]|msg]; reflexivity.
  - destruct (issues_createComment octokit _ _) as [[]|msg]; reflexivity.
Qed.

(** X4: an event that is neither a pull request event nor a created comment
    holding the marker makes no call to the client: the run only warns that
    there is no pull request. *)
Theorem no_pull_request_no_call (ev : Event) (octokit : Octokit) :
  match ev with
  | issue_comment action body _ =>
      action <> "created" \/ includes body "#tag" = false
  | pull_request _ _ _ => False
  | other_event _ => True
  end ->
  run ev octokit = [Warning "PR not found"].
Proof.
  intros H. rewrite run_eq. destruct ev as [action body n| |]; [|destruct H|reflexivity].
  cbn [extract].
  replace (String.eqb action "created" && includes body "#tag") with false; [reflexivity|].
  symmetry. apply andb_false_iff.
  destruct H as [H|H]; [left; apply String.eqb_neq, H | right; exact H].
Qed.

Lemma no_pull_request_no_call_witness :
  run (issue_comment "created" "looks good to me" 7) (example_client ["1.2.3"] 201)
  = [Warning "PR not found"].
Proof.
  apply (no_pull_request_no_call (issue_comment "created" "looks good to me" 7)).
  right. reflexivity.
Defined.

(** X8: a pull request event whose action is not opened, and that is not a
    closed and merged pull request, does nothing at all. *)
Theorem other_actions_do_nothing
        (action : string) (number : Z) (pr : PullRequest) (octokit : Octokit) :
  action <> "opened" ->
  action <> "closed" \/ pr_merged pr = false ->
  run (pull_request action number pr) octokit = [].
Proof.
  intros O C. rewrite run_eq. cbn [extract].
  apply String.eqb_neq in O. rewrite O.
  replace (String.eqb action "closed" && pr_merged pr) with false; [reflexivity|].
  symmetry. apply andb_false_iff.
  destruct C as [C|C]; [left; apply String.eqb_neq, C | right; exact C].
Qed.

Lemma other_actions_do_nothing_witness :
  run (pull_request "closed" 7 (example_open 7 "fix/bug")) (example_client ["1.2.3"] 201) = [].
Proof.
  apply other_actions_do_nothing; [discriminate | right; reflexivity].
Defined.

(** The part of an explicit trace before its release, the parameters of the
    release, and the part after it. *)
Ltac split_at_release l :=
  lazymatch l with
  | CreateRelease ?p :: ?after => constr:((@nil Effect, p, after))
  | ?x :: ?r =>
      let t := split_at_release r in
      lazymatch t with
      | (?b, ?p, ?a) => constr:((x :: b, p, a))
      end
  end.

(** X6: an output is set only after a call to create the release that was
    answered, not rejected, with status 201 or for a pull request whose
    number is not positive; it reports the tag and the pre-release flag of
    that call. *)
Theorem outputs_follow_release
        (ev : Event) (octokit : Octokit) (output : string) (value : JsValue) :
  In (SetOutput output value) (run ev octokit) ->
  exists pr p status before after,
    snd (extract ev octokit) = Normal (Some pr)
    /\ run ev octokit = (before ++ CreateRelease p :: after)%list
    /\ In (SetOutput output value) after
    /\ repos_createRelease octokit p = Resolved status
    /\ (status = 201%Z \/ (pr_number pr <= 0)%Z)
    /\ ((output = "new_tag" /\ value = js_of (tag_name p))
        \/ (output = "pre_release" /\ value = JsBool (release_prerelease p))).
Proof.
  split_run ev octokit; cbn [In]; intros H;
    repeat match type of H with
           | _ \/ _ => destruct H as [H|H]
           | False => destruct H
           | SetOutput _ _ = SetOutput _ _ => injection H as <- <-
           | _ = _ => discriminate H
           end;
    match goal with
    | |- exists pr p status before after, _ /\ ?l = _ /\ _ =>
        let t := split_at_release l in
        lazymatch t with
        | (?b, ?p, ?a) => eexists; exists p; eexists; exists b, a
        end
    end;
    (split; [reflexivity|]);
    (split; [reflexivity|]);
    (split; [cbn [In]; auto 6|]);
    (split; [eassumption|]);
    (split;
     [ match goal with
       | C : negb (_ =? 201)%Z && (0 <? _)%Z = false |- _ =>
           apply andb_false_iff in C as [C|C];
           [ left; apply negb_false_iff, Z.eqb_eq in C; exact C
           | right; apply Z.ltb_ge in C; exact C ]
       end
     | first [left; split; reflexivity | right; split; reflexivity] ]).
Qed.

Lemma outputs_follow_release_witness :
  exists pr p status before after,
    snd (extract (example_merge 7 "fix/bug") (example_client ["1.0.0"] 201))
    = Normal (Some pr)
    /\ run (example_merge 7 "fix/bug") (example_client ["1.0.0"] 201)
       = (before ++ CreateRelease p :: after)%list
    /\ In (SetOutput "new_tag" (JsStr "1.0.1")) after
    /\ repos_createRelease (example_client ["1.0.0"] 201) p = Resolved status
    /\ (status = 201%Z \/ (pr_number pr <= 0)%Z)
    /\ (("new_tag" = "new_tag" /\ JsStr "1.0.1" = js_of (tag_name p))
        \/ ("new_tag" = "pre_release" /\ JsStr "1.0.1" = JsBool (release_prerelease p))).
Proof.
  apply (outputs_follow_release
           (example_merge 7 "fix/bug") (example_client ["1.0.0"] 201)
           "new_tag" (JsStr "1.0.1")).
  vm_compute. auto 10.
Defined.

Lemma listed_first_sound (t : list Effect) :
  forall seen before p after,
    listed_first seen t = true ->
    t = (before ++ CreateRelease p :: after)%list ->
    seen = true \/ In (ListTags 100) before.
Proof.
  induction t as [|e t IH]; intros seen before p after L E.
  - destruct before; discriminate E.
  - destruct before as [|x before]; cbn [app] in E; injection E as -> ->.
    + cbn [listed_first] in L. apply andb_true_iff in L as [S _]. left. exact S.
    + assert (K : forall seen', listed_first seen' (before ++ CreateRelease p :: after) = true ->
                               (seen' = true -> seen = true \/ x = ListTags 100) ->
                               seen = true \/ In (ListTags 100) (x :: before)).
      { intros seen' L' S.
        destruct (IH seen' before p after L' eq_refl) as [T|I].
        - destruct (S T) as [T'|T']; [left; exact T' | right; left; exact T'].
        - right. right. exact I. }
      destruct x; cbn [listed_first] in L;
        try (apply (K seen L); intros T; left; exact T).
      * apply (K _ L). intros T. apply orb_true_iff in T as [T|T]; [left; exact T|].
        apply Z.eqb_eq in T. subst. right. reflexivity.
      * apply andb_true_iff in L as [S L]. apply (K seen L). intros T. left. exact T.
Qed.

(** X7: a run lists the tags at most once and creates at most one release,
    and a release is created only after the tags were listed, and listed
    with success. *)
Theorem at_most_one_release (ev : Event) (octokit : Octokit) :
  (List.length (filter is_ListTags (run ev octokit)) <= 1)%nat
  /\ (List.length (filter is_CreateRelease (run ev octokit)) <= 1)%nat
  /\ (forall before p after,
         run ev octokit = (before ++ CreateRelease p :: after)%list ->
         In (ListTags 100) before
         /\ exists tags, repos_listTags octokit 100 = Resolved tags).
Proof.
  split; [|split].
  - split_run ev octokit; cbn; lia.
  - split_run ev octokit; cbn; lia.
  - intros before p after E. split.
    + assert (L : listed_first false (run ev octokit) = true)
        by (split_run ev octokit; reflexivity).
      destruct (listed_first_sound _ _ _ _ _ L E) as [T|I]; [discriminate T | exact I].
    + assert (I : In (CreateRelease p) (run ev octokit))
        by (rewrite E; apply in_or_app; right; left; reflexivity).
      destruct (release_origin _ _ _ I) as (pr & pat & tags & _ & _ & _ & _ & T & _).
      exists tags. exact T.
Qed.

Lemma at_most_one_release_witness :
  In (ListTags 100) [ListTags 100; Info "tags:"; Info "1.0.0"; Info "firstValid: 1.0.0";
                     Info "newTag: 1.0.1"]
  /\ exists tags, repos_listTags (example_client ["1.0.0"] 201) 100 = Resolved tags.
Proof.
  exact (proj2 (proj2 (at_most_one_release
                         (example_merge 7 "fix/bug") (example_client ["1.0.0"] 201)))
               [ListTags 100; Info "tags:"; Info "1.0.0"; Info "firstValid: 1.0.0";
                Info "newTag: 1.0.1"]
               example_release
               [SetOutput "new_tag" (JsStr "1.0.1"); SetOutput "pre_release" (JsBool false);
                CreateComment 7 ":label: Release `1.0.1` created."]
               eq_refl).
Defined.

(** X9: a label is added only when a pull request is opened: it is the one
    label of the first rule the branch matches, on the pull request of the
    payload. *)
Theorem labels_only_when_opened
        (ev : Event) (octokit : Octokit) (issue : Z) (labels : list string) :
  In (AddLabels issue labels) (run ev octokit) ->
  exists number pr pat,
    ev = pull_request "opened" number pr
    /\ issue = pr_number pr
    /\ find_pattern (pr_head_ref pr) = Some pat
    /\ labels = [label pat].
Proof.
  split_run ev octokit; cbn [In]; intros H;
    repeat match type of H with
           | _ \/ _ => destruct H as [H|H]
           | False => destruct H
           | AddLabels _ _ = AddLabels _ _ => injection H as <- <-
           | _ = _ => discriminate H
           end;
    match goal with
    | O : String.eqb _ "opened" = true |- _ => apply String.eqb_eq in O; subst
    end;
    eauto 10.
Qed.

Lemma labels_only_when_opened_witness :
  exists number pr pat,
    pull_request "opened" 7 (example_open 7 "feature/x") = pull_request "opened" number pr
    /\ 7%Z = pr_number pr
    /\ find_pattern (pr_head_ref pr) = Some pat
    /\ ["feature"] = [label pat].
Proof.
  apply (labels_only_when_opened
           (pull_request "opened" 7 (example_open 7 "feature/x"))
           (example_client ["1.2.3"] 201)).
  vm_compute. auto.
Defined.

(** X10: when the listing of the tags is rejected the run fails with the
    message of the error before any release; when the creation of the
    release is rejected it fails with that message right after the call; in
    both cases no output is set and no comment posted. *)
Theorem rejected_listing_or_release
        (ev : Event) (octokit : Octokit) (pr : PullRequest) (pat : BranchType) :
  snd (extract ev octokit) = Normal (Some pr) ->
  gated pr = false ->
  find_pattern (pr_head_ref pr) = Some pat ->
  is_chore (bump pat) = false ->
  (forall msg,
      repos_listTags octokit 100 = Rejected msg ->
      run ev octokit = (fst (extract ev octokit) ++ [ListTags 100; SetFailed msg])%list)
  /\ (forall tags msg,
         repos_listTags octokit 100 = Resolved tags ->
         let nt := newTag tags (pr_head_ref pr) pat (negb (pr_merged pr)) in
         repos_createRelease octokit (release_params pr nt) = Rejected msg ->
         run ev octokit =
         (fst (extract ev octokit) ++ resolution_log tags nt ++
          [CreateRelease (release_params pr nt); SetFailed msg])%list)
  /\ ((exists msg, repos_listTags octokit 100 = Rejected msg)
      \/ (exists tags msg,
             repos_listTags octokit 100 = Resolved tags
             /\ repos_createRelease octokit
                  (release_params pr (newTag tags (pr_head_ref pr) pat (negb (pr_merged pr))))
                = Rejected msg) ->
      existsb output_or_comment (run ev octokit) = false).
Proof.
  intros E G P B.
  pose proof (run_released _ _ _ _ E G P B) as R.
  rewrite release_eq in R.
  pose proof (selected_search_quiet _ _ _ E) as Q.
  split; [|split].
  - intros msg L. rewrite L in R. exact R.
  - intros tags msg L nt C. rewrite L in R. cbv zeta in R. fold nt in R.
    rewrite C in R. rewrite R. cbn [catch]. rewrite <- app_assoc. reflexivity.
  - intros [(msg & L)|(tags & msg & L & C)]; rewrite L in R; cbv zeta in R.
    + rewrite R, existsb_app, Q. reflexivity.
    + rewrite C in R. rewrite R, existsb_app, Q. reflexivity.
Qed.

Lemma rejected_listing_or_release_witness :
  run (example_merge 7 "fix/bug") example_rate_limited
  = [ListTags 100; SetFailed "rate limit"].
Proof.
  exact (proj1 (rejected_listing_or_release
                  (example_merge 7 "fix/bug") example_rate_limited
                  (example_merged 7 "fix/bug")
                  (mkBranchType (StartsWith "fix/") patch "fix")
                  eq_refl eq_refl eq_refl eq_refl) "rate limit" eq_refl).
Defined.

Lemma includes_prefix (s t : string) : includes (s ++ t) s = true.
Proof.
  assert (P : forall a b, String.prefix a (a ++ b) = true).
  { induction a as [|c a IH]; intros b; cbn [String.prefix append]; [destruct b; reflexivity|].
    destruct (ascii_dec c c) as [_|N]; [apply IH | contradiction N; reflexivity]. }
  destruct s; cbn [includes append]; [destruct t; reflexivity|].
  pose proof (P (String a s) t) as Q. cbn [append] in Q. rewrite Q. reflexivity.
Qed.

Lemma includes_app_l (u s t : string) : includes s t = true -> includes (u ++ s) t = true.
Proof.
  intros H. induction u as [|c u IH]; [exact H|].
  cbn [append includes]. rewrite IH. apply orb_true_r.
Qed.

Lemma includes_middle (u s t : string) : includes (u ++ s ++ t) s = true.
Proof. apply includes_app_l, includes_prefix. Qed.

(** X11: when the release is created with status 201, the run sets the two
    outputs, then comments on the pull request, and fails only if that
    comment is rejected; the comment names the tag. *)
Theorem created_release_is_reported
        (ev : Event) (octokit : Octokit) (pr : PullRequest) (pat : BranchType)
        (tags : list Tag) :
  snd (extract ev octokit) = Normal (Some pr) ->
  gated pr = false ->
  find_pattern (pr_head_ref pr) = Some pat ->
  is_chore (bump pat) = false ->
  repos_listTags octokit 100 = Resolved tags ->
  let pre := negb (pr_merged pr) in
  let nt := newTag tags (pr_head_ref pr) pat pre in
  let body := created_comment pre nt in
  repos_createRelease octokit (release_params pr nt) = Resolved 201%Z ->
  run ev octokit =
  (fst (extract ev octokit) ++ resolution_log tags nt ++
   [CreateRelease (release_params pr nt); SetOutput "new_tag" (js_of nt);
    SetOutput "pre_release" (JsBool pre); CreateComment (pr_number pr) body] ++
   match issues_createComment octokit (pr_number pr) body with
   | Resolved _ => []
   | Rejected msg => [SetFailed msg]
   end)%list
  /\ (forall t, nt = Some t -> includes body t = true).
Proof.
  intros E G P B L pre nt body C.
  pose proof (run_released _ _ _ _ E G P B) as R.
  rewrite release_eq, L in R. cbv zeta in R. fold pre nt body in R.
  rewrite C in R. cbn [Z.eqb Pos.eqb negb andb] in R.
  split.
  - rewrite R. destruct (issues_createComment octokit _ _) as [[]|msg]; cbn [catch].
    + rewrite app_nil_r. reflexivity.
    + rewrite <- !app_assoc. reflexivity.
  - intros t ->. unfold body, created_comment. cbn [show].
    rewrite <- !append_assoc.
    rewrite append_assoc. apply includes_middle.
Qed.

Lemma created_release_is_reported_witness :
  run (example_merge 7 "fix/bug") (example_client ["1.0.0"] 201)
  = [ListTags 100; Info "tags:"; Info "1.0.0"; Info "firstValid: 1.0.0";
     Info "newTag: 1.0.1";
     CreateRelease (release_params (example_merged 7 "fix/bug") (Some "1.0.1"));
     SetOutput "new_tag" (JsStr "1.0.1"); SetOutput "pre_release" (JsBool false);
     CreateComment 7 ":label: Release `1.0.1` created."].
Proof.
  exact (proj1 (created_release_is_reported
                  (example_merge 7 "fix/bug") (example_client ["1.0.0"] 201)
                  (example_merged 7 "fix/bug")
                  (mkBranchType (StartsWith "fix/") patch "fix")
                  [mkTag "1.0.0"]
                  eq_refl eq_refl eq_refl eq_refl eq_refl eq_refl)).
Defined.

(** * Further properties of the resolution *)

Lemma spec_full_release_valid (raw : string) :
  spec_full_release raw = true ->
  Semver.valid raw = Some raw /\ Semver.prerelease_of raw = None.
Proof.
  unfold spec_full_release, Semver.valid, Semver.prerelease_of.
  destruct (Semver.parse raw) as [v|]; [|discriminate].
  destruct (Semver.prerelease v); [|discriminate].
  intros E. apply String.eqb_eq in E. cbn [option_map]. rewrite E. auto.
Qed.

(** X12: the baseline is the name of one of the tags or the literal 0.0.0,
    and it is always a canonical version without pre-release component. *)
Theorem baseline_is_canonical (tags : list Tag) :
  Semver.valid (lastTag tags) = Some (lastTag tags)
  /\ Semver.prerelease_of (lastTag tags) = None
  /\ (lastTag tags = "0.0.0" \/ exists t, In t tags /\ name t = lastTag tags).
Proof.
  unfold lastTag. rewrite firstValid_spec.
  destruct (find _ tags) as [t|] eqn:F.
  - apply find_some in F as [I S].
    destruct (spec_full_release_valid _ S) as [V P].
    repeat split; auto. right. exists t. auto.
  - repeat split; auto.
Qed.

(** The canonical string of a version starts with a digit or a dot. *)
Lemma version_not_v (v : Semver.SemVer) (rest : string) :
  Semver.version v <> String "v" rest.
Proof.
  unfold Semver.version, of_N.
  destruct (N.to_uint (Semver.major v)); cbn; discriminate.
Qed.

Lemma v_prefixed_not_full_release (raw : string) :
  String.prefix "v" raw = true -> spec_full_release raw = false.
Proof.
  intros P. apply prefix_cons_inv in P as (rest & -> & _).
  unfold spec_full_release.
  destruct (Semver.parse _) as [v|]; [|reflexivity].
  destruct (Semver.prerelease v); [|reflexivity].
  apply String.eqb_neq, version_not_v.
Qed.

(** X13: tags whose name starts with v never count as full releases: the
    baseline is the one of the other tags, and 0.0.0 when every tag starts
    with v. *)
Theorem v_prefixed_tags_are_ignored (tags : list Tag) :
  lastTag tags = lastTag (filter (fun t => negb (String.prefix "v" (name t))) tags)
  /\ ((forall t, In t tags -> String.prefix "v" (name t) = true) ->
      lastTag tags = "0.0.0").
Proof.
  assert (E : lastTag tags
              = lastTag (filter (fun t => negb (String.prefix "v" (name t))) tags)).
  { unfold lastTag. rewrite !firstValid_spec, find_filter.
    rewrite (find_pointwise (fun tag => spec_full_release (name tag))
               (fun x => negb (String.prefix "v" (name x)) && spec_full_release (name x)));
      [reflexivity|].
    intros t. destruct (String.prefix "v" (name t)) eqn:P; [|reflexivity].
    apply v_prefixed_not_full_release, P. }
  split; [exact E|].
  intros H. rewrite E.
  replace (filter (fun t => negb (String.prefix "v" (name t))) tags) with (@nil Tag);
    [reflexivity|].
  clear E. induction tags as [|t tags IH]; [reflexivity|].
  cbn [filter]. rewrite (H t) by (left; reflexivity). cbn [negb].
  apply IH. intros u I. apply H. right. exact I.
Qed.

Lemma v_prefixed_tags_are_ignored_witness :
  lastTag [mkTag "v1.2.3"; mkTag "v2.0.0"] = "0.0.0".
Proof.
  apply (proj2 (v_prefixed_tags_are_ignored [mkTag "v1.2.3"; mkTag "v2.0.0"])).
  intros t [<-|[<-|[]]]; reflexivity.
Defined.

Lemma replace_app (b s : string) :
  includes b "/" = true ->
  replace (b ++ s) "/" "-" = replace b "/" "-" ++ s.
Proof.
  induction b as [|c b IH]; [discriminate|].
  cbn [includes String.prefix append replace].
  destruct (Ascii.eqb c "/") eqn:E; [reflexivity|].
  apply Ascii.eqb_neq in E.
  destruct (ascii_dec "/" c) as [<-|_]; [contradiction E; reflexivity|].
  cbn [orb]. intros I. rewrite (IH I). reflexivity.
Qed.

Lemma prefix_app_inv (x y t : string) :
  String.prefix (x ++ y) t = true -> String.prefix x t = true.
Proof.
  revert t. induction x as [|c x IH]; intros t; cbn [append].
  - intros _. destruct t; reflexivity.
  - intros H. apply prefix_cons_inv in H as (t' & -> & H).
    cbn [String.prefix]. destruct (ascii_dec c c) as [_|N]; [|contradiction N; reflexivity].
    apply IH, H.
Qed.

Lemma includes_app_inv (t x y : string) :
  includes t (x ++ y) = true -> includes t x = true.
Proof.
  induction t as [|c t IH]; cbn [includes]; intros H.
  - rewrite orb_false_r in *. apply (prefix_app_inv x y), H.
  - apply orb_true_iff in H as [H|H]; apply orb_true_iff.
    + left. apply (prefix_app_inv x y), H.
    + right. apply IH, H.
Qed.

(** X14: the identifier of a branch is a prefix of the identifier of every
    branch whose name extends it, so that a tag matching the longer branch
    also matches the shorter one: a pre-release of the shorter branch then
    increments an existing tag and does not start from the baseline. *)
Theorem rc_shared_with_longer_branch
        (tags : list Tag) (branch suffix : string) (pat : BranchType) (rc : Tag) :
  includes branch "/" = true ->
  first_rc tags (branch ++ suffix) = Some rc ->
  rcName (branch ++ suffix) = rcName branch ++ suffix
  /\ exists rc',
       first_rc tags branch = Some rc'
       /\ newTag tags branch pat true = Semver.inc (name rc') "prerelease" None.
Proof.
  intros S F.
  assert (R : rcName (branch ++ suffix) = rcName branch ++ suffix).
  { unfold rcName. rewrite (replace_app _ _ S). reflexivity. }
  split; [exact R|].
  unfold first_rc in F. apply find_some in F as [I M]. rewrite R in M.
  apply includes_app_inv in M.
  destruct (first_rc tags branch) as [rc'|] eqn:F'.
  - exists rc'. split; [reflexivity|]. apply newTag_existing_rc, F'.
  - unfold first_rc in F'. pose proof (find_none _ _ F' _ I) as N.
    cbv beta in N. rewrite M in N. discriminate N.
Qed.

Lemma rc_shared_with_longer_branch_witness :
  rcName "feature/login2" = "rc-feature-login2"
  /\ exists rc',
       first_rc [mkTag "1.3.0-rc-feature-login2.4"] "feature/login" = Some rc'
       /\ newTag [mkTag "1.3.0-rc-feature-login2.4"] "feature/login"
                 (mkBranchType (StartsWith "feature/") minor "feature") true
          = Semver.inc (name rc') "prerelease" None.
Proof.
  exact (rc_shared_with_longer_branch
           [mkTag "1.3.0-rc-feature-login2.4"] "feature/login" "2"
           (mkBranchType (StartsWith "feature/") minor "feature")
           (mkTag "1.3.0-rc-feature-login2.4") eq_refl eq_refl).
Defined.

(** ** Printing and reading numbers *)

Lemma forallb_app (p : ascii -> bool) (s t : string) :
  JsString.forallb p (s ++ t) = JsString.forallb p s && JsString.forallb p t.
Proof.
  induction s as [|a s IH]; cbn [append JsString.forallb]; [reflexivity|].
  rewrite IH, andb_assoc. reflexivity.
Qed.

Lemma forallb_impl (p q : ascii -> bool) (s : string) :
  (forall a, p a = true -> q a = true) ->
  JsString.forallb p s = true -> JsString.forallb q s = true.
Proof.
  intros I. induction s as [|a s IH]; cbn [JsString.forallb]; [reflexivity|].
  intros H. apply andb_true_iff in H as [A S]. rewrite (I a A), (IH S). reflexivity.
Qed.

Lemma uint_digits (d : Decimal.uint) :
  JsString.forallb is_digit (NilEmpty.string_of_uint d) = true.
Proof. induction d; cbn; auto. Qed.

Lemma of_N_digits (n : N) : JsString.forallb is_digit (of_N n) = true.
Proof. apply uint_digits. Qed.

Lemma to_uint_normal (n : N) : Decimal.unorm (N.to_uint n) = N.to_uint n.
Proof.
  rewrite <- (DecimalN.Unsigned.to_of (N.to_uint n)), DecimalN.Unsigned.of_to.
  reflexivity.
Qed.

Lemma nzhead_not_D0 (d d' : Decimal.uint) : Decimal.nzhead d <> Decimal.D0 d'.
Proof. induction d; cbn; try discriminate. exact IHd. Qed.

Lemma unorm_shape (d : Decimal.uint) :
  Decimal.unorm d = d ->
  d = Decimal.zero \/ (d <> Decimal.Nil /\ forall d', d <> Decimal.D0 d').
Proof.
  unfold Decimal.unorm. intros H.
  destruct (Decimal.nzhead d) eqn:Z;
    first [ left; symmetry; exact H
          | exfalso; exact (nzhead_not_D0 _ _ Z)
          | right; rewrite <- H; split; [discriminate | intros d'; discriminate] ].
Qed.

(** A printed number is a numeric identifier. *)
Lemma of_N_numeric (n : N) : Semver.numeric_identifier (of_N n) = true.
Proof.
  unfold Semver.numeric_identifier. rewrite of_N_digits, andb_true_r.
  unfold of_N.
  destruct (unorm_shape _ (to_uint_normal n)) as [->|[N0 N1]]; [reflexivity|].
  destruct (N.to_uint n) as [|d|d|d|d|d|d|d|d|d|d]; try reflexivity.
  - contradiction N0; reflexivity.
  - contradiction (N1 d); reflexivity.
Qed.

Lemma digits_value_uint (d acc : Decimal.uint) :
  fold_left (fun acc a => (10 * acc + (N.of_nat (nat_of_ascii a) - 48))%N)
            (list_ascii_of_string (NilEmpty.string_of_uint d))
            (DecimalPos.Unsigned.of_lu acc)
  = DecimalPos.Unsigned.of_lu (Decimal.revapp d acc).
Proof.
  revert acc.
  induction d; intros acc;
    cbn [NilEmpty.string_of_uint list_ascii_of_string fold_left Decimal.revapp];
    [reflexivity|..];
    rewrite <- IHd; f_equal; cbn [DecimalPos.Unsigned.of_lu];
    change (N.of_nat (nat_of_ascii _) - 48)%N with 0%N
    || change (N.of_nat (nat_of_ascii _) - 48)%N with 1%N
    || change (N.of_nat (nat_of_ascii _) - 48)%N with 2%N
    || change (N.of_nat (nat_of_ascii _) - 48)%N with 3%N
    || change (N.of_nat (nat_of_ascii _) - 48)%N with 4%N
    || change (N.of_nat (nat_of_ascii _) - 48)%N with 5%N
    || change (N.of_nat (nat_of_ascii _) - 48)%N with 6%N
    || change (N.of_nat (nat_of_ascii _) - 48)%N with 7%N
    || change (N.of_nat (nat_of_ascii _) - 48)%N with 8%N
    || change (N.of_nat (nat_of_ascii _) - 48)%N with 9%N;
    lia.
Qed.

(** Reading a printed number gives the number back. *)
Lemma digits_value_of_N (n : N) : digits_value (of_N n) = n.
Proof.
  unfold digits_value, of_N.
  change 0%N with (DecimalPos.Unsigned.of_lu Decimal.Nil) at 1.
  rewrite digits_value_uint.
  change (Decimal.revapp (N.to_uint n) Decimal.Nil) with (Decimal.rev (N.to_uint n)).
  rewrite <- DecimalPos.Unsigned.of_uint_alt.
  apply DecimalN.Unsigned.of_to.
Qed.

(** ** Cutting, splitting and trimming *)

Lemma cut_none (c : ascii) (s : string) :
  lacks c s = true -> cut c s = (s, None).
Proof.
  unfold lacks. induction s as [|a s IH]; cbn [JsString.forallb cut]; [reflexivity|].
  intros H. apply andb_true_iff in H as [A S].
  apply negb_true_iff in A. rewrite A, (IH S). reflexivity.
Qed.

Lemma cut_app (c : ascii) (s t : string) :
  lacks c s = true -> cut c (s ++ String c t) = (s, Some t).
Proof.
  unfold lacks. induction s as [|a s IH]; cbn [JsString.forallb cut append].
  - rewrite Ascii.eqb_refl. reflexivity.
  - intros H. apply andb_true_iff in H as [A S].
    apply negb_true_iff in A. rewrite A, (IH S). reflexivity.
Qed.

Lemma split_single (c : ascii) (s : string) :
  lacks c s = true -> split c s = [s].
Proof.
  unfold lacks. induction s as [|a s IH]; cbn [JsString.forallb split]; [reflexivity|].
  intros H. apply andb_true_iff in H as [A S].
  apply negb_true_iff in A. rewrite A, (IH S). reflexivity.
Qed.

Lemma split_app (c : ascii) (s t : string) :
  lacks c s = true -> split c (s ++ String c t) = s :: split c t.
Proof.
  unfold lacks. induction s as [|a s IH]; cbn [JsString.forallb split append].
  - rewrite Ascii.eqb_refl. reflexivity.
  - intros H. apply andb_true_iff in H as [A S].
    apply negb_true_iff in A. rewrite A, (IH S). reflexivity.
Qed.

Lemma drop_prefix_spec (w s r : string) :
  drop_prefix w s = Some r -> s = w ++ r.
Proof.
  revert s. induction w as [|b w IH]; intros s; cbn [drop_prefix append].
  - intros [= ->]. reflexivity.
  - destruct s as [|a s]; [discriminate|].
    destruct (Ascii.eqb b a) eqn:E; [|discriminate].
    apply Ascii.eqb_eq in E. subst a. intros H. rewrite (IH _ H). reflexivity.
Qed.

Lemma strip_spec (ws : list string) (s r : string) :
  strip ws s = Some r -> exists w, In w ws /\ s = w ++ r.
Proof.
  induction ws as [|w ws IH]; cbn [strip]; [discriminate|].
  destruct (drop_prefix w s) as [r'|] eqn:D.
  - intros [= ->]. exists w. split; [left; reflexivity | apply drop_prefix_spec, D].
  - intros H. destruct (IH H) as (w' & I & E). exists w'. split; [right; exact I | exact E].
Qed.

Lemma strip_none (ws : list string) (a : ascii) (r : string) :
  existsb (starts_with a) ws = false -> strip ws (String a r) = None.
Proof.
  induction ws as [|w ws IH]; cbn [existsb strip]; [reflexivity|].
  intros H. apply orb_false_iff in H as [W H]. rewrite (IH H).
  destruct w as [|b w]; [discriminate W|].
  cbn [starts_with] in W. cbn [drop_prefix]. rewrite W. reflexivity.
Qed.

Lemma strip_all_id (ws : list string) (n : nat) (a : ascii) (r : string) :
  existsb (starts_with a) ws = false -> strip_all ws n (String a r) = String a r.
Proof.
  intros H. destruct n; cbn [strip_all]; [reflexivity|].
  rewrite (strip_none _ _ _ H). reflexivity.
Qed.

Lemma reverse_involutive (s : string) : reverse (reverse s) = s.
Proof.
  unfold reverse.
  rewrite list_ascii_of_string_of_list_ascii, rev_involutive.
  apply string_of_list_ascii_of_string.
Qed.

Lemma forallb_list (p : ascii -> bool) (s : string) :
  JsString.forallb p s = List.forallb p (list_ascii_of_string s).
Proof.
  induction s as [|a s IH]; cbn [JsString.forallb list_ascii_of_string List.forallb];
    [reflexivity | rewrite IH; reflexivity].
Qed.

Lemma forallb_reverse (p : ascii -> bool) (s : string) :
  JsString.forallb p (reverse s) = JsString.forallb p s.
Proof.
  unfold reverse. rewrite !forallb_list, list_ascii_of_string_of_list_ascii.
  induction (list_ascii_of_string s) as [|a l IH]; [reflexivity|].
  cbn [rev List.forallb]. rewrite List.forallb_app, IH. cbn [List.forallb].
  rewrite andb_true_r. apply andb_comm.
Qed.

(** A string of plain bytes is its own trim. *)
Lemma trim_plain (s : string) :
  JsString.forallb plain s = true -> trim s = s.
Proof.
  intros H. unfold trim.
  assert (S : trim_start s = s).
  { unfold trim_start. destruct s as [|a r]; [reflexivity|].
    cbn [JsString.forallb] in H. apply andb_true_iff in H as [A _].
    unfold plain in A. apply andb_true_iff in A as [A _].
    apply negb_true_iff in A. apply strip_all_id, A. }
  rewrite S. unfold trim_end.
  rewrite <- forallb_reverse in H.
  destruct (reverse s) as [|l r] eqn:R.
  - rewrite <- (reverse_involutive s), R. reflexivity.
  - cbn [JsString.forallb] in H. apply andb_true_iff in H as [A _].
    unfold plain in A. apply andb_true_iff in A as [_ A].
    apply negb_true_iff in A. rewrite (strip_all_id _ _ _ _ A), <- R.
    apply reverse_involutive.
Qed.

Lemma digit_plain (a : ascii) :
  is_digit a = true ->
  plain a = true /\ a <> "."%char /\ a <> "+"%char /\ a <> "-"%char /\ a <> "v"%char.
Proof.
  destruct a as [[] [] [] [] [] [] [] []]; intros H;
    first [discriminate H | repeat split; first [reflexivity | discriminate]].
Qed.

Lemma ident_plain (a : ascii) :
  Semver.ident_char a = true ->
  plain a = true /\ a <> "."%char /\ a <> "+"%char /\ a <> "/"%char.
Proof.
  destruct a as [[] [] [] [] [] [] [] []]; intros H;
    first [discriminate H | repeat split; first [reflexivity | discriminate]].
Qed.

Lemma digits_lack (c : ascii) (s : string) :
  is_digit c = false -> JsString.forallb is_digit s = true -> lacks c s = true.
Proof.
  intros C. apply forallb_impl. intros a A.
  apply negb_true_iff, Ascii.eqb_neq. intros ->. rewrite C in A. discriminate A.
Qed.

Lemma idents_lack (c : ascii) (s : string) :
  Semver.ident_char c = false -> JsString.forallb Semver.ident_char s = true ->
  lacks c s = true.
Proof.
  intros C. apply forallb_impl. intros a A.
  apply negb_true_iff, Ascii.eqb_neq. intros ->. rewrite C in A. discriminate A.
Qed.

Lemma digits_plain (s : string) :
  JsString.forallb is_digit s = true -> JsString.forallb plain s = true.
Proof.
  apply forallb_impl. intros a A. destruct (digit_plain a A) as [P _]. exact P.
Qed.

Lemma idents_plain (s : string) :
  JsString.forallb Semver.ident_char s = true -> JsString.forallb plain s = true.
Proof.
  apply forallb_impl. intros a A. destruct (ident_plain a A) as [P _]. exact P.
Qed.

Lemma strip_v (s : string) :
  (forall r, s <> String "v" r) ->
  match s with String "v" r => r | _ => s end = s.
Proof.
  intros H. destruct s as [|[[] [] [] [] [] [] [] []] r]; try reflexivity.
  contradiction (H r). reflexivity.
Qed.

Lemma of_N_cons (n : N) : exists d r, of_N n = String d r /\ is_digit d = true.
Proof.
  pose proof (of_N_numeric n) as H. pose proof (of_N_digits n) as D.
  destruct (of_N n) as [|d r]; [discriminate H|].
  cbn [JsString.forallb] in D. apply andb_true_iff in D as [D _]. eauto.
Qed.

(** ** Reading the name of a release candidate *)

Lemma lacks_app (c : ascii) (s t : string) :
  lacks c (s ++ t) = lacks c s && lacks c t.
Proof. apply forallb_app. Qed.

Lemma lacks_core (x : ascii) (a b c : N) :
  is_digit x = false -> x <> "."%char -> lacks x (core_string a b c) = true.
Proof.
  intros D P. unfold core_string. rewrite !lacks_app.
  rewrite !(digits_lack x _ D (of_N_digits _)).
  apply Ascii.eqb_neq in P. rewrite Ascii.eqb_sym in P.
  unfold lacks. cbn [JsString.forallb]. rewrite P. reflexivity.
Qed.

Lemma split_core (a b c : N) :
  split "." (core_string a b c) = [of_N a; of_N b; of_N c].
Proof.
  unfold core_string. cbn [append].
  rewrite split_app by (apply digits_lack; [reflexivity | apply of_N_digits]).
  rewrite split_app by (apply digits_lack; [reflexivity | apply of_N_digits]).
  rewrite split_single by (apply digits_lack; [reflexivity | apply of_N_digits]).
  reflexivity.
Qed.

Lemma match_full_rc (a b c : N) (id : string) (n : N) :
  Semver.non_numeric_identifier id = true ->
  Semver.match_full (rc_tag a b c id n)
  = Some (Semver.mkGroups (of_N a) (of_N b) (of_N c) (Some (id ++ "." ++ of_N n)) None).
Proof.
  intros I. pose proof I as I'. unfold Semver.non_numeric_identifier in I'.
  apply andb_true_iff in I' as [IC _].
  unfold Semver.match_full.
  rewrite strip_v.
  2:{ intros r E. destruct (of_N_cons a) as (d & r0 & A & D).
      unfold rc_tag, core_string in E. rewrite A in E. cbn [append] in E.
      injection E as -> _. discriminate D. }
  unfold rc_tag. cbn [append].
  rewrite (cut_none "+").
  2:{ rewrite lacks_app, lacks_core by (reflexivity || discriminate).
      unfold lacks. cbn [JsString.forallb Ascii.eqb Bool.eqb negb andb].
      rewrite forallb_app. cbn [JsString.forallb Ascii.eqb Bool.eqb negb andb].
      fold (lacks "+" id). fold (lacks "+" (of_N n)).
      rewrite (idents_lack "+" id eq_refl IC).
      rewrite (digits_lack "+" _ eq_refl (of_N_digits n)). reflexivity. }
  rewrite cut_app by (apply lacks_core; [reflexivity | discriminate]).
  rewrite split_core, !of_N_numeric.
  unfold Semver.all_identifiers.
  rewrite split_app by (apply idents_lack; [reflexivity | exact IC]).
  rewrite split_single by (apply digits_lack; [reflexivity | apply of_N_digits]).
  cbn [List.forallb andb].
  unfold Semver.prerelease_identifier. rewrite I, of_N_numeric, orb_true_r.
  reflexivity.
Qed.

Lemma rc_tag_plain (a b c : N) (id : string) (n : N) :
  JsString.forallb Semver.ident_char id = true ->
  JsString.forallb plain (rc_tag a b c id n) = true.
Proof.
  intros IC. unfold rc_tag, core_string.
  rewrite !forallb_app. cbn [JsString.forallb].
  rewrite !(digits_plain _ (of_N_digits _)), (idents_plain _ IC).
  reflexivity.
Qed.

Lemma digit_one_unit (a : ascii) : is_digit a = true -> code_units a = 1%nat.
Proof.
  destruct a as [[] [] [] [] [] [] [] []]; intros H;
    first [discriminate H | reflexivity].
Qed.

Lemma ident_one_unit (a : ascii) : Semver.ident_char a = true -> code_units a = 1%nat.
Proof.
  destruct a as [[] [] [] [] [] [] [] []]; intros H;
    first [discriminate H | reflexivity].
Qed.

Lemma utf16_length_app (s t : string) :
  utf16_length (s ++ t) = (utf16_length s + utf16_length t)%nat.
Proof.
  induction s as [|a s IH]; cbn [append utf16_length]; [reflexivity|].
  rewrite IH. lia.
Qed.

Lemma length_units (p : ascii -> bool) (s : string) :
  (forall a, p a = true -> code_units a = 1%nat) ->
  JsString.forallb p s = true -> utf16_length s = String.length s.
Proof.
  intros U. induction s as [|a s IH]; cbn [JsString.forallb utf16_length String.length];
    [reflexivity|].
  intros H. apply andb_true_iff in H as [A S]. rewrite (U a A), (IH S). reflexivity.
Qed.

Lemma string_length_app (s t : string) :
  String.length (s ++ t) = (String.length s + String.length t)%nat.
Proof.
  induction s as [|a s IH]; cbn [append String.length]; [reflexivity|].
  rewrite IH. reflexivity.
Qed.

(** The name of a release candidate is ASCII: its length in code units is
    its length in bytes. *)
Lemma rc_tag_length (a b c : N) (id : string) (n : N) :
  JsString.forallb Semver.ident_char id = true ->
  utf16_length (rc_tag a b c id n) = String.length (rc_tag a b c id n).
Proof.
  intros IC. unfold rc_tag, core_string.
  rewrite !utf16_length_app, !string_length_app.
  rewrite !(length_units _ _ digit_one_unit (of_N_digits _)).
  rewrite (length_units _ _ ident_one_unit IC).
  reflexivity.
Qed.

(** The constructor reads the name of a release candidate back. *)
Lemma construct_rc (a b c : N) (id : string) (n : N) :
  (a <= Semver.MAX_SAFE_INTEGER)%N ->
  (b <= Semver.MAX_SAFE_INTEGER)%N ->
  (c <= Semver.MAX_SAFE_INTEGER)%N ->
  (n < Semver.MAX_SAFE_INTEGER)%N ->
  Semver.non_numeric_identifier id = true ->
  (String.length (rc_tag a b c id n) <= Semver.MAX_LENGTH)%nat ->
  Semver.construct (rc_tag a b c id n)
  = Some (Semver.mkSemVer a b c [Semver.IdStr id; Semver.IdNum n] []).
Proof.
  intros A B C N I L.
  pose proof I as I'. unfold Semver.non_numeric_identifier in I'.
  apply andb_true_iff in I' as [IC ID].
  unfold Semver.construct.
  rewrite <- (rc_tag_length a b c id n IC) in L.
  apply Nat.ltb_ge in L. rewrite L.
  rewrite trim_plain by (apply rc_tag_plain, IC).
  rewrite (match_full_rc _ _ _ _ _ I).
  cbn [Semver.g_major Semver.g_minor Semver.g_patch Semver.g_prerelease Semver.g_build].
  rewrite !digits_value_of_N.
  apply N.ltb_ge in A, B, C. rewrite A, B, C.
  cbn [append].
  rewrite split_app by (apply idents_lack; [reflexivity | exact IC]).
  rewrite split_single by (apply digits_lack; [reflexivity | apply of_N_digits]).
  cbn [map]. unfold Semver.parse_prerelease_id.
  apply negb_true_iff in ID. rewrite ID, andb_false_r.
  replace (nonempty (of_N n)) with true
    by (destruct (of_N_cons n) as (d & r & -> & _); reflexivity).
  rewrite of_N_digits, digits_value_of_N. cbn [andb].
  apply N.ltb_lt in N. rewrite N. reflexivity.
Qed.

Lemma version_rc (a b c : N) (id : string) (n : N) (bld : list string) :
  Semver.version (Semver.mkSemVer a b c [Semver.IdStr id; Semver.IdNum n] bld)
  = rc_tag a b c id n.
Proof.
  unfold Semver.version, rc_tag, core_string.
  cbn [Semver.major Semver.minor Semver.patch Semver.prerelease map join Semver.id_to_string].
  rewrite !append_assoc. reflexivity.
Qed.

(** X15: when the first matching tag is the name of a release candidate, a
    core, an identifier and a counter, the pre-release resolution is the
    same name with the counter one higher. *)
Theorem rc_counter_step
        (tags : list Tag) (branch : string) (pat : BranchType) (rc : Tag)
        (a b c : N) (id : string) (n : N) :
  first_rc tags branch = Some rc ->
  name rc = rc_tag a b c id n ->
  (a <= Semver.MAX_SAFE_INTEGER)%N ->
  (b <= Semver.MAX_SAFE_INTEGER)%N ->
  (c <= Semver.MAX_SAFE_INTEGER)%N ->
  (n < Semver.MAX_SAFE_INTEGER)%N ->
  Semver.non_numeric_identifier id = true ->
  (String.length (name rc) <= Semver.MAX_LENGTH)%nat ->
  newTag tags branch pat true = Some (rc_tag a b c id (n + 1)).
Proof.
  intros F E A B C N I L.
  rewrite (newTag_existing_rc _ _ pat _ F), E.
  rewrite E in L.
  unfold Semver.inc. rewrite (construct_rc a b c id n A B C N I L).
  change (Semver.inc_method _ "prerelease" None)
    with (Some (Semver.mkSemVer a b c [Semver.IdStr id; Semver.IdNum (n + 1)] [])).
  cbn [option_map]. rewrite version_rc. reflexivity.
Qed.

Lemma rc_counter_step_witness :
  newTag [mkTag "1.2.3"; mkTag "1.3.0-rc-feature-x.41"] "feature/x"
         (mkBranchType (StartsWith "feature/") minor "feature") true
  = Some "1.3.0-rc-feature-x.42".
Proof.
  exact (rc_counter_step
           [mkTag "1.2.3"; mkTag "1.3.0-rc-feature-x.41"] "feature/x"
           (mkBranchType (StartsWith "feature/") minor "feature")
           (mkTag "1.3.0-rc-feature-x.41") 1 3 0 "rc-feature-x" 41
           eq_refl eq_refl
           ltac:(discriminate) ltac:(discriminate) ltac:(discriminate) eq_refl
           eq_refl ltac:(vm_compute; lia)).
Defined.

(** X16: a fresh release candidate and its repetition, for a branch whose
    identifier is made of letters, digits and hyphens and a baseline whose
    components are below the safe-integer bound.  With no matching tag the
    resolution is the standard increment of the baseline with the
    identifier of the branch and the counter 0; that tag matches the
    branch; and when it is at most 256 characters long and is the first
    matching tag of a later list, the resolution keeps the core and the
    identifier and moves the counter to 1, whatever the bump kind and the
    baseline then are. *)
Theorem fresh_then_repeat
        (tags : list Tag) (branch : string) (pat : BranchType) (v : Semver.SemVer) :
  (forall t, In t tags -> includes (name t) (rcName branch) = false) ->
  is_chore (bump pat) = false ->
  Semver.non_numeric_identifier (rcName branch) = true ->
  Semver.construct (lastTag tags) = Some v ->
  (Semver.major v < Semver.MAX_SAFE_INTEGER)%N ->
  (Semver.minor v < Semver.MAX_SAFE_INTEGER)%N ->
  (Semver.patch v < Semver.MAX_SAFE_INTEGER)%N ->
  exists a b c,
    spec_increment (bump pat) v = Some (core_string a b c)
    /\ newTag tags branch pat true = Some (rc_tag a b c (rcName branch) 0)
    /\ first_rc (mkTag (rc_tag a b c (rcName branch) 0) :: tags) branch
       = Some (mkTag (rc_tag a b c (rcName branch) 0))
    /\ ((String.length (rc_tag a b c (rcName branch) 0) <= Semver.MAX_LENGTH)%nat ->
        forall tags' pat',
          first_rc tags' branch = Some (mkTag (rc_tag a b c (rcName branch) 0)) ->
          newTag tags' branch pat' true = Some (rc_tag a b c (rcName branch) 1)).
Proof.
  intros H B I C M1 M2 M3.
  assert (E : newTag tags branch pat true
              = option_map (fun core => core ++ "-" ++ rcName branch ++ ".0")
                           (spec_increment (bump pat) v)).
  { unfold newTag. rewrite (rcs_none _ _ H).
    apply inc_fresh_prerelease; [exact C | reflexivity]. }
  assert (K : forall a b c,
             (a <= Semver.MAX_SAFE_INTEGER)%N ->
             (b <= Semver.MAX_SAFE_INTEGER)%N ->
             (c <= Semver.MAX_SAFE_INTEGER)%N ->
             spec_increment (bump pat) v = Some (core_string a b c) ->
             exists a b c,
               spec_increment (bump pat) v = Some (core_string a b c)
               /\ newTag tags branch pat true = Some (rc_tag a b c (rcName branch) 0)
               /\ first_rc (mkTag (rc_tag a b c (rcName branch) 0) :: tags) branch
                  = Some (mkTag (rc_tag a b c (rcName branch) 0))
               /\ ((String.length (rc_tag a b c (rcName branch) 0) <= Semver.MAX_LENGTH)%nat ->
                   forall tags' pat',
                     first_rc tags' branch = Some (mkTag (rc_tag a b c (rcName branch) 0)) ->
                     newTag tags' branch pat' true = Some (rc_tag a b c (rcName branch) 1))).
  { intros a b c A1 A2 A3 S. exists a, b, c.
    split; [exact S|]. split; [rewrite E, S; reflexivity|]. split.
    - unfold first_rc. cbn [find name].
      replace (includes (rc_tag a b c (rcName branch) 0) (rcName branch)) with true;
        [reflexivity|].
      symmetry. unfold rc_tag. apply includes_app_l.
      apply (includes_app_l "-"). apply includes_prefix.
    - intros L tags' pat' F.
      apply (rc_counter_step tags' branch pat' _ a b c (rcName branch) 0 F);
        try assumption; reflexivity. }
  assert (Z : (0 <= Semver.MAX_SAFE_INTEGER)%N) by discriminate.
  destruct (bump pat); [| | |discriminate B]; cbn [spec_increment] in *.
  - apply (K (Semver.major v) (Semver.minor v) (Semver.patch v + 1)%N);
      try reflexivity; lia.
  - apply (K (Semver.major v) (Semver.minor v + 1)%N 0%N); try reflexivity; lia.
  - apply (K (Semver.major v + 1)%N 0%N 0%N); try reflexivity; lia.
Qed.

Lemma fresh_then_repeat_witness :
  exists a b c,
    spec_increment minor (Semver.mkSemVer 1 2 3 [] []) = Some (core_string a b c)
    /\ newTag [mkTag "1.2.3"] "feature/x"
              (mkBranchType (StartsWith "feature/") minor "feature") true
       = Some (rc_tag a b c "rc-feature-x" 0)
    /\ first_rc (mkTag (rc_tag a b c "rc-feature-x" 0) :: [mkTag "1.2.3"]) "feature/x"
       = Some (mkTag (rc_tag a b c "rc-feature-x" 0))
    /\ ((String.length (rc_tag a b c "rc-feature-x" 0) <= Semver.MAX_LENGTH)%nat ->
        forall tags' pat',
          first_rc tags' "feature/x" = Some (mkTag (rc_tag a b c "rc-feature-x" 0)) ->
          newTag tags' "feature/x" pat' true = Some (rc_tag a b c "rc-feature-x" 1)).
Proof.
  refine (fresh_then_repeat
            [mkTag "1.2.3"] "feature/x"
            (mkBranchType (StartsWith "feature/") minor "feature")
            (Semver.mkSemVer 1 2 3 [] [])
            _ eq_refl eq_refl eq_refl eq_refl eq_refl eq_refl).
  intros t [<-|[]]. reflexivity.
Defined.

(** ** Names that are not versions *)

Lemma includes_char (c : ascii) (s : string) :
  includes s (String c "") = negb (lacks c s).
Proof.
  unfold lacks. induction s as [|a s IH]; [reflexivity|].
  cbn [includes String.prefix JsString.forallb]. rewrite IH.
  destruct (ascii_dec c a) as [<-|N].
  - rewrite Ascii.eqb_refl. destruct s; reflexivity.
  - apply Ascii.eqb_neq in N. rewrite Ascii.eqb_sym in N. rewrite N.
    cbn [negb andb orb]. reflexivity.
Qed.

Lemma prefix_lacks (c : ascii) (r t : string) :
  String.prefix r t = true -> lacks c t = true -> lacks c r = true.
Proof.
  revert t. induction r as [|a r IH]; intros t P L; [reflexivity|].
  apply prefix_cons_inv in P as (t' & -> & P).
  unfold lacks in *. cbn [JsString.forallb] in *.
  apply andb_true_iff in L as [A L]. rewrite A. apply (IH t' P L).
Qed.

(** A substring holds no character its string lacks. *)
Lemma includes_lacks (c : ascii) (t r : string) :
  includes t r = true -> lacks c t = true -> lacks c r = true.
Proof.
  induction t as [|a t IH]; cbn [includes]; intros I L.
  - rewrite orb_false_r in I. apply (prefix_lacks c r "" I L).
  - apply orb_true_iff in I as [I|I]; [apply (prefix_lacks c r _ I L)|].
    apply IH; [exact I|].
    unfold lacks in *. cbn [JsString.forallb] in L.
    apply andb_true_iff in L as [_ L]. exact L.
Qed.

Lemma cut_spec (c : ascii) (s : string) :
  s = fst (cut c s) ++ match snd (cut c s) with
                       | Some r => String c r
                       | None => ""
                       end.
Proof.
  induction s as [|a s IH]; [reflexivity|]. cbn [cut].
  destruct (Ascii.eqb a c) eqn:E.
  - apply Ascii.eqb_eq in E. subst. reflexivity.
  - destruct (cut c s) as [l r]. cbn [fst snd append] in *. f_equal. exact IH.
Qed.

Lemma split_lacks (x c : ascii) (s : string) :
  x <> c -> List.forallb (lacks x) (split c s) = true -> lacks x s = true.
Proof.
  intros N. apply Ascii.eqb_neq in N.
  induction s as [|a s IH]; [reflexivity|]. cbn [split].
  destruct (Ascii.eqb a c) eqn:E.
  - apply Ascii.eqb_eq in E. subst a. cbn [List.forallb]. intros H.
    apply andb_true_iff in H as [_ H].
    unfold lacks in *. cbn [JsString.forallb]. rewrite Ascii.eqb_sym, N. apply IH, H.
  - destruct (split c s) as [|y rest]; cbn [List.forallb]; intros H.
    + apply andb_true_iff in H as [H _]. unfold lacks in *.
      cbn [JsString.forallb] in *. apply andb_true_iff in H as [A _].
      rewrite A. apply IH. reflexivity.
    + apply andb_true_iff in H as [H R]. unfold lacks in *.
      cbn [JsString.forallb] in *. apply andb_true_iff in H as [A Y].
      rewrite A. apply IH. cbn [List.forallb]. rewrite Y, R. reflexivity.
Qed.

Lemma list_forallb_impl {A} (p q : A -> bool) (l : list A) :
  (forall x, p x = true -> q x = true) ->
  List.forallb p l = true -> List.forallb q l = true.
Proof.
  intros I. induction l as [|x l IH]; cbn [List.forallb]; [reflexivity|].
  intros H. apply andb_true_iff in H as [X L]. rewrite (I x X), (IH L). reflexivity.
Qed.

Lemma numeric_lacks_slash (s : string) :
  Semver.numeric_identifier s = true -> lacks "/" s = true.
Proof.
  unfold Semver.numeric_identifier. intros H.
  apply andb_true_iff in H as [H _]. apply andb_true_iff in H as [_ H].
  apply digits_lack; [reflexivity | exact H].
Qed.

Lemma prerelease_lacks_slash (s : string) :
  Semver.prerelease_identifier s = true -> lacks "/" s = true.
Proof.
  unfold Semver.prerelease_identifier, Semver.non_numeric_identifier. intros H.
  apply orb_true_iff in H as [H|H]; [apply numeric_lacks_slash, H|].
  apply andb_true_iff in H as [H _]. apply idents_lack; [reflexivity | exact H].
Qed.

Lemma build_lacks_slash (s : string) :
  Semver.build_identifier s = true -> lacks "/" s = true.
Proof.
  unfold Semver.build_identifier. intros H.
  apply andb_true_iff in H as [_ H]. apply idents_lack; [reflexivity | exact H].
Qed.

Lemma all_identifiers_lack_slash (p : string -> bool) (o : option string) :
  (forall s, p s = true -> lacks "/" s = true) ->
  Semver.all_identifiers p o = true ->
  lacks "/" match o with Some r => r | None => "" end = true.
Proof.
  intros I. destruct o as [r|]; [|reflexivity]. cbn [Semver.all_identifiers].
  intros H. apply (split_lacks "/" "." r); [discriminate|].
  apply (list_forallb_impl p); assumption.
Qed.

(** The expression FULL matches no string that holds a slash. *)
Lemma match_full_lacks_slash (s : string) (g : Semver.Groups) :
  Semver.match_full s = Some g -> lacks "/" s = true.
Proof.
  unfold Semver.match_full.
  assert (V : lacks "/" match s with String "v" r => r | _ => s end = true ->
              lacks "/" s = true).
  { destruct s as [|[[] [] [] [] [] [] [] []] r]; intros H; exact H. }
  set (s' := match s with String "v" r => r | _ => s end) in *.
  intros H. apply V. clearbody s'. clear V.
  pose proof (cut_spec "+" s') as C1.
  destruct (cut "+" s') as [front bld]. cbn [fst snd] in C1.
  pose proof (cut_spec "-" front) as C2.
  destruct (cut "-" front) as [main pre]. cbn [fst snd] in C2.
  destruct (split "." main) as [|a [|b [|c [|]]]] eqn:S; try discriminate H.
  destruct (Semver.numeric_identifier a) eqn:Na; [|discriminate H].
  destruct (Semver.numeric_identifier b) eqn:Nb; [|discriminate H].
  destruct (Semver.numeric_identifier c) eqn:Nc; [|discriminate H].
  destruct (Semver.all_identifiers Semver.prerelease_identifier pre) eqn:P; [|discriminate H].
  destruct (Semver.all_identifiers Semver.build_identifier bld) eqn:B; [|discriminate H].
  apply (all_identifiers_lack_slash _ _ prerelease_lacks_slash) in P.
  apply (all_identifiers_lack_slash _ _ build_lacks_slash) in B.
  assert (M : lacks "/" main = true).
  { apply (split_lacks "/" "." main); [discriminate|]. rewrite S.
    cbn [List.forallb].
    rewrite !numeric_lacks_slash by assumption. reflexivity. }
  rewrite C1, C2, !lacks_app, M. cbn [andb].
  destruct pre, bld; unfold lacks in *; cbn [JsString.forallb Ascii.eqb Bool.eqb negb andb];
    rewrite ?P, ?B; reflexivity.
Qed.

Lemma strip_all_lacks (c : ascii) (ws : list string) (n : nat) (s : string) :
  List.forallb (lacks c) ws = true ->
  lacks c (strip_all ws n s) = true -> lacks c s = true.
Proof.
  intros W. revert s. induction n as [|n IH]; intros s; cbn [strip_all]; [auto|].
  destruct (strip ws s) as [r|] eqn:S; [|auto].
  intros H. destruct (strip_spec _ _ _ S) as (w & I & ->).
  rewrite lacks_app, (IH _ H), andb_true_r.
  rewrite List.forallb_forall in W. apply W, I.
Qed.

(** Trimming removes no slash. *)
Lemma trim_lacks_slash (s : string) :
  lacks "/" (trim s) = true -> lacks "/" s = true.
Proof.
  unfold trim, trim_end, trim_start, lacks. rewrite forallb_reverse.
  intros H. apply (strip_all_lacks "/" (map reverse white_space)) in H; [|reflexivity].
  unfold lacks in H. rewrite forallb_reverse in H.
  apply (strip_all_lacks "/" white_space) in H; [exact H | reflexivity].
Qed.

(** The constructor throws on every string that holds a slash. *)
Lemma construct_slash (s : string) :
  includes s "/" = true -> Semver.construct s = None.
Proof.
  rewrite includes_char. intros H. apply negb_true_iff in H.
  unfold Semver.construct.
  destruct (Semver.MAX_LENGTH <? utf16_length s)%nat; [reflexivity|].
  destruct (Semver.match_full (trim s)) as [g|] eqn:M; [|reflexivity].
  apply match_full_lacks_slash, trim_lacks_slash in M.
  rewrite M in H. discriminate H.
Qed.

Lemma includes_slash_trans (t r : string) :
  includes t r = true -> includes r "/" = true -> includes t "/" = true.
Proof.
  rewrite !includes_char. intros I R.
  destruct (lacks "/" t) eqn:L; [|reflexivity].
  rewrite (includes_lacks "/" t r I L) in R. discriminate R.
Qed.

Lemma valid_slash (s : string) : includes s "/" = true -> Semver.valid s = None.
Proof.
  rewrite includes_char. intros H. apply negb_true_iff in H.
  unfold Semver.valid, Semver.parse.
  destruct (Semver.MAX_LENGTH <? utf16_length s)%nat; [reflexivity|].
  destruct (Semver.match_full s) as [g|] eqn:M; [|reflexivity].
  apply match_full_lacks_slash in M. rewrite M in H. discriminate H.
Qed.

(** X17: on a branch whose name holds a second separator the identifier
    keeps that separator: the fresh release candidate is then a tag name
    that is not a semantic version, and as soon as a tag matches the branch
    the pre-release resolution is null. *)
Theorem second_separator_breaks_rc
        (tags : list Tag) (a b : string) (pat : BranchType) :
  includes a "/" = false ->
  includes b "/" = true ->
  includes (rcName (a ++ "/" ++ b)) "/" = true
  /\ (forall t,
         (forall u, In u tags -> includes (name u) (rcName (a ++ "/" ++ b)) = false) ->
         newTag tags (a ++ "/" ++ b) pat true = Some t ->
         includes t (rcName (a ++ "/" ++ b)) = true /\ Semver.valid t = None)
  /\ (forall rc,
         first_rc tags (a ++ "/" ++ b) = Some rc ->
         newTag tags (a ++ "/" ++ b) pat true = None).
Proof.
  intros A B.
  assert (R : includes (rcName (a ++ "/" ++ b)) "/" = true).
  { unfold rcName. rewrite (replace_first_slash a b A).
    apply (includes_app_l "rc-"), includes_app_l, (includes_app_l "-"), B. }
  split; [exact R|]. split.
  - intros t H N.
    destruct (lastTag_release tags) as (v & C & _).
    unfold newTag in N. rewrite (rcs_none _ _ H) in N.
    rewrite (inc_fresh_prerelease _ v _ (rcName (a ++ "/" ++ b)) C eq_refl) in N.
    destruct (spec_increment (bump pat) v) as [core|]; [|discriminate N].
    injection N as <-.
    assert (I : includes (core ++ "-" ++ rcName (a ++ "/" ++ b) ++ ".0")
                         (rcName (a ++ "/" ++ b)) = true).
    { apply includes_app_l, (includes_app_l "-"), includes_prefix. }
    split; [exact I|]. apply valid_slash, (includes_slash_trans _ _ I R).
  - intros rc F. rewrite (newTag_existing_rc _ _ pat _ F).
    unfold Semver.inc. rewrite construct_slash; [reflexivity|].
    unfold first_rc in F. apply find_some in F as [_ M].
    apply (includes_slash_trans _ _ M R).
Qed.

Lemma second_separator_breaks_rc_witness :
  newTag [mkTag "1.3.0-rc-feature-team/x.0"; mkTag "1.2.3"] "feature/team/x"
         (mkBranchType (StartsWith "feature/") minor "feature") true
  = None.
Proof.
  exact (proj2 (proj2 (second_separator_breaks_rc
                         [mkTag "1.3.0-rc-feature-team/x.0"; mkTag "1.2.3"]
                         "feature" "team/x"
                         (mkBranchType (StartsWith "feature/") minor "feature")
                         eq_refl eq_refl))
               (mkTag "1.3.0-rc-feature-team/x.0") eq_refl).
Defined.


(** * Properties of [updateFile] *)

Lemma writeFileSync_spec (fs fs' : Changelog.FileSystem) (file data : string) :
  Changelog.writeFileSync fs file data = Some fs' ->
  Changelog.entry fs' file = Some (Changelog.File data)
  /\ (forall path, path <> file -> Changelog.entry fs' path = Changelog.entry fs path)
  /\ Changelog.refused fs' = Changelog.refused fs
  /\ Changelog.entry fs file <> Some Changelog.Directory.
Proof.
  unfold Changelog.writeFileSync.
  destruct (Changelog.refused fs (Changelog.entry fs) file); [discriminate|].
  destruct (Changelog.entry fs file) as [[d|]|] eqn:E; try discriminate;
    intros [= <-]; cbn [Changelog.entry Changelog.refused]; rewrite String.eqb_refl;
    (repeat split; try discriminate);
    intros path N; apply String.eqb_neq in N; rewrite N; reflexivity.
Qed.

(** X18: when [updateFile] returns, the path was not a directory, the file
    holds the update of the text it held, or of the changelog template when
    the path held nothing, and no other path changed. *)
Theorem updateFile_result (file : string) (update : string -> option string)
        (fs fs' : Changelog.FileSystem) :
  Changelog.updateFile file update fs = (fs', true) ->
  Changelog.entry fs file <> Some Changelog.Directory
  /\ (exists newData,
         update (text_or_header fs file) = Some newData
         /\ Changelog.entry fs' file = Some (Changelog.File newData))
  /\ (forall path, path <> file -> Changelog.entry fs' path = Changelog.entry fs path).
Proof.
  unfold Changelog.updateFile, Changelog.existsSync, Changelog.readFileSync, text_or_header.
  destruct (Changelog.entry fs file) as [[d|]|] eqn:E; cbn [negb].
  - rewrite E.
    destruct (update d) as [newData|]; [|discriminate].
    destruct (Changelog.writeFileSync fs file newData) as [fs2|] eqn:W; [|discriminate].
    intros [= <-]. destruct (writeFileSync_spec _ _ _ _ W) as (V & O & _ & _).
    split; [discriminate|]. split; [exists newData; auto | exact O].
  - rewrite E. discriminate.
  - destruct (Changelog.writeFileSync fs file Changelog.header) as [fs1|] eqn:W1;
      [|discriminate].
    destruct (writeFileSync_spec _ _ _ _ W1) as (V1 & O1 & _ & _).
    rewrite V1.
    destruct (update Changelog.header) as [newData|]; [|discriminate].
    destruct (Changelog.writeFileSync fs1 file newData) as [fs2|] eqn:W2; [|discriminate].
    intros [= <-]. destruct (writeFileSync_spec _ _ _ _ W2) as (V2 & O2 & _ & _).
    split; [discriminate|]. split; [exists newData; auto|].
    intros path N. rewrite (O2 _ N). apply O1, N.
Qed.

Lemma updateFile_result_witness :
  Changelog.entry example_files "CHANGELOG.md" <> Some Changelog.Directory
  /\ (exists newData,
         example_append "- fix" (text_or_header example_files "CHANGELOG.md") = Some newData
         /\ Changelog.entry
              (fst (Changelog.updateFile "CHANGELOG.md" (example_append "- fix") example_files))
              "CHANGELOG.md"
            = Some (Changelog.File newData))
  /\ (forall path, path <> "CHANGELOG.md" ->
      Changelog.entry
        (fst (Changelog.updateFile "CHANGELOG.md" (example_append "- fix") example_files)) path
      = Changelog.entry example_files path).
Proof.
  exact (updateFile_result "CHANGELOG.md" (example_append "- fix") example_files _ eq_refl).
Defined.

(** X19: when two calls in a row on a file return and the one call with the
    composition of the two updates returns too, they leave the same file
    system. *)
Theorem updateFile_compose
        (file : string) (f g : string -> option string)
        (fs fs1 fs2 fs12 : Changelog.FileSystem) :
  Changelog.updateFile file f fs = (fs1, true) ->
  Changelog.updateFile file g fs1 = (fs2, true) ->
  Changelog.updateFile file (fun data => match f data with
                                         | Some d => g d
                                         | None => None
                                         end) fs = (fs12, true) ->
  forall path, Changelog.entry fs2 path = Changelog.entry fs12 path.
Proof.
  intros U1 U2 U12 path.
  destruct (updateFile_result _ _ _ _ U1) as (_ & (d1 & F1 & V1) & O1).
  destruct (updateFile_result _ _ _ _ U2) as (_ & (d2 & F2 & V2) & O2).
  destruct (updateFile_result _ _ _ _ U12) as (_ & (d12 & F12 & V12) & O12).
  unfold text_or_header in F2. rewrite V1 in F2. rewrite F1, F2 in F12.
  injection F12 as <-.
  destruct (String.eqb path file) eqn:P.
  - apply String.eqb_eq in P. subst path. rewrite V2, V12. reflexivity.
  - apply String.eqb_neq in P. rewrite (O2 _ P), (O12 _ P), (O1 _ P). reflexivity.
Qed.

Lemma updateFile_compose_witness :
  Changelog.entry
    (fst (Changelog.updateFile "CHANGELOG.md" (example_append "b")
            (fst (Changelog.updateFile "CHANGELOG.md" (example_append "a") example_files))))
    "CHANGELOG.md"
  = Changelog.entry
      (fst (Changelog.updateFile "CHANGELOG.md"
              (fun data => match example_append "a" data with
                           | Some d => example_append "b" d
                           | None => None
                           end) example_files))
      "CHANGELOG.md".
Proof.
  exact (updateFile_compose "CHANGELOG.md" (example_append "a") (example_append "b")
           example_files _ _ _ eq_refl eq_refl eq_refl "CHANGELOG.md").
Defined.


